(** * A shallow embedding of the to-do list application (main.py)

    The program is a Tk window over a Python list of task dictionaries,
    stored as JSON in [todo_gui.json].  This development embeds

    - the persistence functions [load_tasks] and [save_tasks], and
    - the callbacks of [TodoGUI] ([add_task], [toggle_done], [delete_task],
      [clear_completed], [save], [on_quit], [_refresh_list]),

    as functions over an explicit program state, with Python exceptions as
    values, and proves the properties of the specification about them.
    The library calls the program relies on are embedded with it: the
    text [json.dumps] writes for a task list, the scanner of [json.loads],
    and what [Path.exists] and [Path.write_text] do when they fail. *)

From Stdlib Require Import ZArith NArith String Ascii Decimal Lia.
From Stdlib Require Import Floats.SpecFloat.
From stdpp Require Import base numbers option list.

Set Default Proof Using "Type".
Set Warnings "-register-all".
Open Scope N_scope.

(* ===================================================================== *)
(** ** Python strings                                                     *)
(* ===================================================================== *)

(** A Python [str] is a sequence of Unicode code points. *)
Definition pystr : Type := list N.

(** A literal of the source, written with ASCII characters. *)
Definition py (s : string) : pystr := N_of_ascii <$> list_ascii_of_string s.

(** The characters [str.strip()] removes when called without argument:
    the code points CPython classifies as whitespace. *)
Definition is_space (c : N) : bool :=
  ((9 <=? c) && (c <=? 13)) || ((28 <=? c) && (c <=? 32))
  || (c =? 133) || (c =? 160) || (c =? 5760)
  || ((8192 <=? c) && (c <=? 8202))
  || (c =? 8232) || (c =? 8233) || (c =? 8239) || (c =? 8287)
  || (c =? 12288).

Fixpoint drop_while {A} (p : A -> bool) (l : list A) : list A :=
  match l with
  | [] => []
  | x :: l' => if p x then drop_while p l' else l
  end.

Definition lstrip (s : pystr) : pystr := drop_while is_space s.
Definition rstrip (s : pystr) : pystr := reverse (drop_while is_space (reverse s)).

(** [s.strip()] *)
Definition strip (s : pystr) : pystr := rstrip (lstrip s).

(** Decimal digits of a non-negative number, as [str(n)] prints them. *)
Fixpoint uint_str (d : Decimal.uint) : pystr :=
  match d with
  | Nil => []
  | D0 d => 48 :: uint_str d
  | D1 d => 49 :: uint_str d
  | D2 d => 50 :: uint_str d
  | D3 d => 51 :: uint_str d
  | D4 d => 52 :: uint_str d
  | D5 d => 53 :: uint_str d
  | D6 d => 54 :: uint_str d
  | D7 d => 55 :: uint_str d
  | D8 d => 56 :: uint_str d
  | D9 d => 57 :: uint_str d
  end.

(** [str(z)] for a Python [int]. *)
Definition int_str (z : Z) : pystr :=
  match Z.to_int z with
  | Decimal.Pos d => uint_str d
  | Decimal.Neg d => 45 :: uint_str d
  end.

(* ===================================================================== *)
(** ** Values produced by [json.loads]                                    *)
(* ===================================================================== *)

(** A JSON object is kept as its members in document order.  [json.loads]
    builds the dictionary by inserting the members one after the other, so
    for a repeated key the last member is the one a lookup returns. *)
Inductive json : Type :=
| JNull
| JBool (b : bool)
| JInt (z : Z)
| JFloat (f : spec_float)
| JStr (s : pystr)
| JArr (items : list json)
| JObj (members : list (pystr * json)).

(** [k in d] for the members [d] of a dictionary. *)
Definition dict_has (k : pystr) (d : list (pystr * json)) : bool :=
  existsb (fun kv => bool_decide (kv.1 = k)) d.

(** [d.get(k)]: the value of the last member with key [k]. *)
Fixpoint dict_get (k : pystr) (d : list (pystr * json)) : option json :=
  match d with
  | [] => None
  | (k', v) :: d' =>
      match dict_get k d' with
      | Some w => Some w
      | None => if bool_decide (k' = k) then Some v else None
      end
  end.

(** [bool(v)]: Python truthiness of a decoded JSON value. *)
Definition py_bool (v : json) : bool :=
  match v with
  | JNull => false
  | JBool b => b
  | JInt z => negb (Z.eqb z 0)
  | JFloat f => match f with S754_zero _ => false | _ => true end
  | JStr s => match s with [] => false | _ => true end
  | JArr l => match l with [] => false | _ => true end
  | JObj d => match d with [] => false | _ => true end
  end.

(** [str(v)].  A [str] converts to itself; [None], booleans and integers
    print as below.  The printed form of floats, lists and dictionaries is
    the interpreter's [repr], taken as the parameter [repr]. *)
Definition py_str (repr : json -> pystr) (v : json) : pystr :=
  match v with
  | JStr s => s
  | JNull => py "None"
  | JBool true => py "True"
  | JBool false => py "False"
  | JInt z => int_str z
  | _ => repr v
  end.

(* ===================================================================== *)
(** ** Tasks                                                              *)
(* ===================================================================== *)

(** A task is the dictionary [{"text": ..., "done": ...}].  Every task
    dictionary of the program is created by [load_tasks] or [add_task],
    with exactly these two keys, a [str] and a [bool]; each dictionary
    occurs once in [self.tasks] and nowhere else, so updating it in place
    is updating one element of the list. *)
Record Task : Type := mkTask { text : pystr; done : bool }.

(** The document [json.dumps] is given for a task list. *)
Definition task_to_json (t : Task) : json :=
  JObj [(py "text", JStr (text t)); (py "done", JBool (done t))].

Definition tasks_to_json (ts : list Task) : json :=
  JArr (task_to_json <$> ts).

(* ===================================================================== *)
(** ** Exceptions and the file                                            *)
(* ===================================================================== *)

Inductive exn : Type :=
| OSError
| UnicodeDecodeError
| JSONDecodeError
| ValueError
| KeyError
| IndexError.

Inductive res (A : Type) : Type :=
| Ret (a : A)
| Raise (e : exn).
Arguments Ret {A} a.
Arguments Raise {A} e.

(** The state of [data_file].  The text of a readable file is represented
    by what [json.loads] makes of it: either it is rejected, or it decodes
    to a value.  The file a write leaves is obtained from the text written,
    by [file_of_text] below. *)
Inductive FileState : Type :=
| Absent                       (* no such file *)
| Inaccessible                 (* the path cannot be examined: [stat] fails
                                  with an error other than "no such file",
                                  as in a directory without search permission *)
| Unreadable (e : exn)         (* the file exists, [read_text] raises [e] *)
| Malformed                    (* [json.loads] rejects the text *)
| Document (v : json).         (* the text decodes to [v] *)

(** [data_file.exists()]: [Path.exists] calls [stat] and answers [False]
    only for the errors that say there is no such file; any other
    [OSError] of [stat] leaves [exists] as it is. *)
Definition exists_ (f : FileState) : res bool :=
  match f with
  | Absent => Ret false
  | Inaccessible => Raise OSError
  | _ => Ret true
  end.

(** [json.loads(data_file.read_text(encoding="utf-8"))] *)
Definition read_json (f : FileState) : res json :=
  match f with
  | Absent => Raise OSError
  | Inaccessible => Raise OSError
  | Unreadable e => Raise e
  | Malformed => Raise JSONDecodeError
  | Document v => Ret v
  end.

(** Sequencing of computations that may raise. *)
Definition res_bind {A B} (m : res A) (k : A -> res B) : res B :=
  match m with
  | Ret a => k a
  | Raise e => Raise e
  end.

(** [try: body except Exception: handler] *)
Definition try_except {A} (body : res A) (handler : res A) : res A :=
  match body with
  | Ret a => Ret a
  | Raise _ => handler
  end.

(** [d[k]] *)
Definition subscript (d : list (pystr * json)) (k : pystr) : res json :=
  match dict_get k d with
  | Some v => Ret v
  | None => Raise KeyError
  end.

(* ===================================================================== *)
(** ** The text of the file: [json.dumps] and [json.loads]                *)
(* ===================================================================== *)

(** [save_tasks] hands [json.dumps] a list of dictionaries with the keys
    [text] (a [str]) and [done] (a [bool]); the encoder is written for
    these.  [ensure_ascii] is left at its default, so the text is ASCII:
    every other character is written as an escape. *)

(** A hexadecimal digit, in lower case. *)
Definition hex_digit (d : N) : N := if d <? 10 then 48 + d else 87 + d.

(** The escape [\uXXXX] of a 16-bit unit. *)
Definition u_escape (c : N) : pystr :=
  [92; 117;
   hex_digit (N.land (N.shiftr c 12) 15); hex_digit (N.land (N.shiftr c 8) 15);
   hex_digit (N.land (N.shiftr c 4) 15); hex_digit (N.land c 15)].

(** What the encoder writes for one character of a string: the printable
    ASCII characters stand for themselves, except the quote and the
    backslash; a character beyond the 16-bit range is written as the two
    escapes of its UTF-16 surrogates. *)
Definition escape_char (c : N) : pystr :=
  if c =? 34 then [92; 34]
  else if c =? 92 then [92; 92]
  else if (32 <=? c) && (c <=? 126) then [c]
  else if c =? 8 then [92; 98]
  else if c =? 12 then [92; 102]
  else if c =? 10 then [92; 110]
  else if c =? 13 then [92; 114]
  else if c =? 9 then [92; 116]
  else if c <? 65536 then u_escape c
  else u_escape (55232 + N.shiftr c 10) ++ u_escape (56320 + N.land c 1023).

Definition escaped (s : pystr) : pystr := s ≫= escape_char.

(** A string between its quotes. *)
Definition encode_string (s : pystr) : pystr := [34] ++ escaped s ++ [34].

(** A task dictionary inside the list, with [indent=2]: its members stand
    on lines of their own, four spaces in, and the closing brace two. *)
Definition dumps_task (t : Task) : pystr :=
  py "{" ++ [10] ++ py "    " ++ encode_string (py "text") ++ py ": "
  ++ encode_string (text t) ++ py "," ++ [10] ++ py "    "
  ++ encode_string (py "done") ++ py ": "
  ++ (if done t then py "true" else py "false")
  ++ [10] ++ py "  " ++ py "}".

(** The items of a list that is not empty, each two spaces in. *)
Fixpoint dumps_items (ts : list Task) : pystr :=
  match ts with
  | [] => []
  | [t] => dumps_task t
  | t :: ts' => dumps_task t ++ py "," ++ [10] ++ py "  " ++ dumps_items ts'
  end.

(** [json.dumps(tasks, indent=2)] *)
Definition dumps (ts : list Task) : pystr :=
  match ts with
  | [] => py "[]"
  | _ => py "[" ++ [10] ++ py "  " ++ dumps_items ts ++ [10] ++ py "]"
  end.

(** The decoder is the scanner of the [json] module, for any text: white
    space, strings with their escapes, the constants, numbers, arrays and
    objects.  Every refusal is an exception [load_tasks] catches. *)

Definition is_ws (c : N) : bool :=
  (c =? 32) || (c =? 9) || (c =? 10) || (c =? 13).
Definition skip_ws (t : pystr) : pystr := drop_while is_ws t.

Definition hex_val (h : N) : option N :=
  if (48 <=? h) && (h <=? 57) then Some (h - 48)
  else if (97 <=? h) && (h <=? 102) then Some (h - 87)
  else if (65 <=? h) && (h <=? 70) then Some (h - 55)
  else None.

(** The value of four hexadecimal digits. *)
Definition hex4 (h1 h2 h3 h4 : N) : option N :=
  d1 ← hex_val h1; d2 ← hex_val h2; d3 ← hex_val h3; d4 ← hex_val h4;
  Some (N.lor (N.shiftl (N.lor (N.shiftl (N.lor (N.shiftl d1 4) d2) 4) d3) 4) d4).

Definition is_high (c : N) : bool := (55296 <=? c) && (c <=? 56319).
Definition is_low (c : N) : bool := (56320 <=? c) && (c <=? 57343).

(** The character a high and a low surrogate stand for together. *)
Definition join_surrogates (hi lo : N) : N :=
  N.lor (N.shiftl (N.land hi 1023) 10) (N.land lo 1023) + 65536.

(** The character after a backslash, other than [u]. *)
Definition short_escape (e : N) : option N :=
  if e =? 34 then Some 34
  else if e =? 92 then Some 92
  else if e =? 47 then Some 47
  else if e =? 98 then Some 8
  else if e =? 102 then Some 12
  else if e =? 110 then Some 10
  else if e =? 114 then Some 13
  else if e =? 116 then Some 9
  else None.

Definition cons_char (c : N) (r : res (pystr * pystr)) : res (pystr * pystr) :=
  res_bind r (fun sr => Ret (c :: sr.1, sr.2)).

(** [scanstring]: the string whose opening quote has been read, and the
    text after its closing quote.  Control characters are refused.  After
    the escape of a high surrogate, the escape of a low surrogate is read
    with it, and the two give one character. *)
Fixpoint scanstring (t : pystr) : res (pystr * pystr) :=
  match t with
  | [] => Raise JSONDecodeError
  | c :: t1 =>
      if c =? 34 then Ret ([], t1)
      else if c <? 32 then Raise JSONDecodeError
      else if negb (c =? 92) then cons_char c (scanstring t1)
      else
        match t1 with
        | [] => Raise JSONDecodeError
        | e :: t2 =>
            if negb (e =? 117) then
              match short_escape e with
              | Some c' => cons_char c' (scanstring t2)
              | None => Raise JSONDecodeError
              end
            else
              match t2 with
              | h1 :: h2 :: h3 :: h4 :: ((_ :: _) as t3) =>
                  match hex4 h1 h2 h3 h4 with
                  | None => Raise JSONDecodeError
                  | Some u =>
                      match t3 with
                      | b :: u' :: g1 :: g2 :: g3 :: g4 :: ((_ :: _) as t4) =>
                          if is_high u && (b =? 92) && (u' =? 117) then
                            match hex4 g1 g2 g3 g4 with
                            | None => Raise JSONDecodeError
                            | Some u2 =>
                                if is_low u2
                                then cons_char (join_surrogates u u2) (scanstring t4)
                                else cons_char u (scanstring t3)
                            end
                          else cons_char u (scanstring t3)
                      | _ => cons_char u (scanstring t3)
                      end
                  end
              | _ => Raise JSONDecodeError
              end
        end
  end.

Definition is_digit (c : N) : bool := (48 <=? c) && (c <=? 57).

(** The digits a text starts with, and the rest. *)
Fixpoint span_digits (t : pystr) : pystr * pystr :=
  match t with
  | c :: t' =>
      if is_digit c then let r := span_digits t' in (c :: r.1, r.2) else ([], t)
  | [] => ([], [])
  end.

Definition digits_val (ds : pystr) : Z :=
  fold_left (fun acc d => (10 * acc + Z.of_N (d - 48))%Z) ds 0%Z.

(** [float] of the decimal number [n * 10 ^ e]: the nearest double, ties
    to even. *)
Definition float_of_decimal (neg : bool) (n e : Z) : spec_float :=
  match n with
  | Zpos m =>
      SFdiv 53 1024
        (S754_finite neg (m * Z.to_pos (10 ^ Z.max e 0)) 0)
        (S754_finite false (Z.to_pos (10 ^ Z.max (- e) 0)) 0)
  | _ => S754_zero neg
  end.

Fixpoint starts_with (p t : pystr) : option pystr :=
  match p with
  | [] => Some t
  | c :: p' =>
      match t with
      | c' :: t' => if c' =? c then starts_with p' t' else None
      | [] => None
      end
  end.

(** The value of a number: an [int] when it has neither fraction nor
    exponent ([int] refuses more than 4300 digits), a [float] otherwise. *)
Definition number_value (neg : bool) (ip : pystr) (fp : option pystr)
    (ex : option Z) : res json :=
  match fp, ex with
  | None, None =>
      if (4300 <? length ip)%nat then Raise ValueError
      else Ret (JInt (if neg then - digits_val ip else digits_val ip)%Z)
  | _, _ =>
      let fd := default [] fp in
      Ret (JFloat (float_of_decimal neg (digits_val (ip ++ fd))
                     (default 0%Z ex - Z.of_nat (length fd))))
  end.

(** An exponent, if one with at least one digit follows. *)
Definition match_exponent (t : pystr) : option Z * pystr :=
  match t with
  | e :: t1 =>
      if (e =? 101) || (e =? 69) then
        let '(neg, t2) :=
          match t1 with
          | s :: t' => if s =? 45 then (true, t')
                       else if s =? 43 then (false, t') else (false, t1)
          | [] => (false, t1)
          end in
        match span_digits t2 with
        | ([], _) => (None, t)
        | (ds, t3) => (Some (if neg then - digits_val ds else digits_val ds)%Z, t3)
        end
      else (None, t)
  | [] => (None, t)
  end.

(** A fraction, if a point and a digit follow. *)
Definition match_fraction (t : pystr) : option pystr * pystr :=
  match t with
  | p :: d :: t' =>
      if (p =? 46) && is_digit d
      then let r := span_digits t' in (Some (d :: r.1), r.2)
      else (None, t)
  | _ => (None, t)
  end.

(** A number: an optional sign, [0] or digits not starting with [0], then
    an optional fraction and exponent. *)
Definition match_number (t : pystr) : res (json * pystr) :=
  let '(neg, t1) := match t with
                    | c :: t' => if c =? 45 then (true, t') else (false, t)
                    | [] => (false, t)
                    end in
  match t1 with
  | c :: t2 =>
      let int_part :=
        if (49 <=? c) && (c <=? 57)
        then let r := span_digits t2 in Some (c :: r.1, r.2)
        else if c =? 48 then Some ([c], t2)
        else None in
      match int_part with
      | None => Raise JSONDecodeError
      | Some (ip, t3) =>
          let '(fp, t4) := match_fraction t3 in
          let '(ex, t5) := match_exponent t4 in
          res_bind (number_value neg ip fp ex) (fun v => Ret (v, t5))
      end
  | [] => Raise JSONDecodeError
  end.

Definition match_constant (t : pystr) : option (json * pystr) :=
  match starts_with (py "null") t with
  | Some r => Some (JNull, r)
  | None =>
  match starts_with (py "true") t with
  | Some r => Some (JBool true, r)
  | None =>
  match starts_with (py "false") t with
  | Some r => Some (JBool false, r)
  | None =>
  match starts_with (py "NaN") t with
  | Some r => Some (JFloat S754_nan, r)
  | None =>
  match starts_with (py "Infinity") t with
  | Some r => Some (JFloat (S754_infinity false), r)
  | None =>
  match starts_with (py "-Infinity") t with
  | Some r => Some (JFloat (S754_infinity true), r)
  | None => None
  end end end end end end.

(** [scan_once]: the value a text starts with, and the text after it;
    [parse_items] and [parse_members] are the loops over the items of an
    array and the members of an object, from the first one on.  The
    recursion is on [fuel], of which every call takes one; [loads] gives
    more than the text has characters. *)
Fixpoint scan_once (fuel : nat) (t : pystr) : res (json * pystr) :=
  match fuel with
  | O => Raise JSONDecodeError
  | S fuel' =>
      match t with
      | [] => Raise JSONDecodeError
      | c :: t1 =>
          if c =? 34 then
            res_bind (scanstring t1) (fun sr => Ret (JStr sr.1, sr.2))
          else if c =? 123 then
            match skip_ws t1 with
            | c' :: t2 =>
                if c' =? 125 then Ret (JObj [], t2)
                else parse_members fuel' (c' :: t2) []
            | [] => Raise JSONDecodeError
            end
          else if c =? 91 then
            match skip_ws t1 with
            | c' :: t2 =>
                if c' =? 93 then Ret (JArr [], t2)
                else parse_items fuel' (c' :: t2) []
            | [] => Raise JSONDecodeError
            end
          else
            match match_constant t with
            | Some r => Ret r
            | None => match_number t
            end
      end
  end
with parse_items (fuel : nat) (t : pystr) (acc : list json)
    : res (json * pystr) :=
  match fuel with
  | O => Raise JSONDecodeError
  | S fuel' =>
      res_bind (scan_once fuel' t) (fun vr =>
      match skip_ws vr.2 with
      | c :: t1 =>
          if c =? 93 then Ret (JArr (acc ++ [vr.1]), t1)
          else if c =? 44 then parse_items fuel' (skip_ws t1) (acc ++ [vr.1])
          else Raise JSONDecodeError
      | [] => Raise JSONDecodeError
      end)
  end
with parse_members (fuel : nat) (t : pystr) (acc : list (pystr * json))
    : res (json * pystr) :=
  match fuel with
  | O => Raise JSONDecodeError
  | S fuel' =>
      match t with
      | q :: t1 =>
          if negb (q =? 34) then Raise JSONDecodeError
          else
            res_bind (scanstring t1) (fun kr =>
            match skip_ws kr.2 with
            | c :: t2 =>
                if negb (c =? 58) then Raise JSONDecodeError
                else
                  res_bind (scan_once fuel' (skip_ws t2)) (fun vr =>
                  match skip_ws vr.2 with
                  | c' :: t3 =>
                      if c' =? 125 then Ret (JObj (acc ++ [(kr.1, vr.1)]), t3)
                      else if c' =? 44
                      then parse_members fuel' (skip_ws t3) (acc ++ [(kr.1, vr.1)])
                      else Raise JSONDecodeError
                  | [] => Raise JSONDecodeError
                  end)
            | [] => Raise JSONDecodeError
            end)
      | [] => Raise JSONDecodeError
      end
  end.

(** [json.loads(text)]: a text starting with a byte order mark is refused;
    after the value only white space may follow.  The interpreter's limit
    on the depth of nesting is not modelled: the texts decoded here are
    those [save_tasks] writes and their beginnings, nested two deep. *)
Definition loads (t : pystr) : res json :=
  match t with
  | 65279 :: _ => Raise JSONDecodeError
  | _ =>
      res_bind (scan_once (S (length t)) (skip_ws t)) (fun vr =>
      match skip_ws vr.2 with
      | [] => Ret vr.1
      | _ => Raise JSONDecodeError
      end)
  end.

(** The state of a file that holds the text [t]. *)
Definition file_of_text (t : pystr) : FileState :=
  match loads t with
  | Ret v => Document v
  | Raise _ => Malformed
  end.

Section Load.
Variable repr : json -> pystr.

(** One turn of the loop of [load_tasks]: the list [out] after [item]. *)
Definition load_item (out : list Task) (item : json) : res (list Task) :=
  match item with
  | JObj d =>
      if dict_has (py "text") d then
        res_bind (subscript d (py "text")) (fun v =>
        Ret (out ++ [ {| text := py_str repr v;
                         done := py_bool (default (JBool false)
                                            (dict_get (py "done") d)) |} ]))
      else Ret out
  | _ => Ret out
  end.

(** [for item in data: ...], from the accumulator [out]. *)
Fixpoint load_loop (items : list json) (out : list Task) : res (list Task) :=
  match items with
  | [] => Ret out
  | item :: rest => res_bind (load_item out item) (load_loop rest)
  end.

(** The body of the [try] block: [Some out] when it reaches [return out],
    [None] when it runs to its end because [data] is not a list. *)
Definition load_body (f : FileState) : res (option (list Task)) :=
  res_bind (read_json f) (fun data =>
  match data with
  | JArr items => res_bind (load_loop items []) (fun out => Ret (Some out))
  | _ => Ret None
  end).

(** [load_tasks()]; the call of [exists] stands before the [try]. *)
Definition load_tasks (f : FileState) : res (list Task) :=
  res_bind (exists_ f) (fun found =>
  if negb found then Ret []
  else
    res_bind (try_except (load_body f) (Ret None)) (fun returned =>
    match returned with
    | Some out => Ret out
    | None => Ret []
    end)).

End Load.

(* ===================================================================== *)
(** ** The state of the running program                                   *)
(* ===================================================================== *)

(** What the program does to its surroundings, oldest first: the dialogs
    of [messagebox] and the calls of [data_file.write_text]. *)
Inductive event : Type :=
| ShowInfo (title message : pystr)
| AskYesNo (title message : pystr) (answer : bool)
| WriteText (doc : json).

(** A row of the [tk.Listbox]: its text, and whether [itemconfig] has
    coloured it gray. *)
Record Row : Type := mkRow { line : pystr; gray : bool }.

Record State : Type := mkState {
  tasks : list Task;      (* self.tasks *)
  task_var : pystr;       (* self.task_var, the content of the entry *)
  status : pystr;         (* self.status *)
  lb_rows : list Row;     (* the rows of self.listbox *)
  lb_sel : list nat;      (* self.listbox.curselection() *)
  file : FileState;       (* data_file on disk *)
  writable : bool;        (* whether writing data_file succeeds *)
  torn : option nat;      (* how a write fails when it does: [None] at
                             [open], before the file is touched; [Some n]
                             after [open] has emptied the file and the
                             first [n] characters have reached it *)
  trace : list event      (* events so far, oldest first *)
}.

Definition set_tasks (ts : list Task) (s : State) : State :=
  mkState ts (task_var s) (status s) (lb_rows s) (lb_sel s)
          (file s) (writable s) (torn s) (trace s).
Definition set_task_var (v : pystr) (s : State) : State :=
  mkState (tasks s) v (status s) (lb_rows s) (lb_sel s)
          (file s) (writable s) (torn s) (trace s).
Definition set_status (v : pystr) (s : State) : State :=
  mkState (tasks s) (task_var s) v (lb_rows s) (lb_sel s)
          (file s) (writable s) (torn s) (trace s).
Definition set_lb_rows (rows : list Row) (s : State) : State :=
  mkState (tasks s) (task_var s) (status s) rows (lb_sel s)
          (file s) (writable s) (torn s) (trace s).
Definition set_lb_sel (sel : list nat) (s : State) : State :=
  mkState (tasks s) (task_var s) (status s) (lb_rows s) sel
          (file s) (writable s) (torn s) (trace s).
Definition set_file (f : FileState) (s : State) : State :=
  mkState (tasks s) (task_var s) (status s) (lb_rows s) (lb_sel s)
          f (writable s) (torn s) (trace s).
Definition emit (e : event) (s : State) : State :=
  mkState (tasks s) (task_var s) (status s) (lb_rows s) (lb_sel s)
          (file s) (writable s) (torn s) (trace s ++ [e]).

(** A callback: it changes the state and returns or raises.  A raised
    exception keeps the state reached so far. *)
Definition M (A : Type) : Type := State -> State * res A.

Definition ret {A} (a : A) : M A := fun s => (s, Ret a).
Definition raise {A} (e : exn) : M A := fun s => (s, Raise e).
Definition bind {A B} (m : M A) (k : A -> M B) : M B :=
  fun s =>
    match m s with
    | (s', Ret a) => k a s'
    | (s', Raise e) => (s', Raise e)
    end.
Definition gets {A} (f : State -> A) : M A := fun s => (s, Ret (f s)).
Definition modify (f : State -> State) : M unit := fun s => (f s, Ret tt).

Declare Scope py_scope.
Delimit Scope py_scope with py.
Notation "x <- m ;;; k" := (bind m (fun x => k))
  (at level 100, m at next level, k at level 200, right associativity) : py_scope.
Notation "m ;;; k" := (bind m (fun _ => k))
  (at level 100, k at level 200, right associativity) : py_scope.
Bind Scope py_scope with M.

(** [for x in l: body(x)] *)
Fixpoint for_each {A} (l : list A) (body : A -> M unit) : M unit :=
  match l with
  | [] => ret tt
  | x :: l' => (body x ;;; for_each l' body)%py
  end.

(** The state a callback leaves, and how it ended. *)
Definition after {A} (m : M A) (s : State) : State := (m s).1.
Definition outcome {A} (m : M A) (s : State) : res A := (m s).2.

(* ===================================================================== *)
(** ** The toolkit and the file system                                    *)
(* ===================================================================== *)

(** [messagebox.showinfo(title, message)] *)
Definition showinfo (title message : pystr) : M unit :=
  modify (emit (ShowInfo title message)).

(** [messagebox.askyesno(title, message)]; [answer] is the user's choice. *)
Definition askyesno (title message : pystr) (answer : bool) : M bool :=
  (modify (emit (AskYesNo title message answer)) ;;; ret answer)%py.

(** [data_file.write_text(json.dumps(ts, indent=2), encoding="utf-8")];
    the event records the document handed to [json.dumps].  On a writable
    disk the file now holds the text.  Otherwise the call raises
    [OSError]: either [open] refuses and the file is as before, or the
    write breaks off after [open], which has emptied the file, and the
    file holds the characters written until then. *)
Definition write_json (ts : list Task) : M unit :=
  (modify (emit (WriteText (tasks_to_json ts))) ;;;
   ok <- gets writable ;;;
   if ok then modify (set_file (file_of_text (dumps ts)))
   else
     how <- gets torn ;;;
     match how with
     | None => raise OSError
     | Some n =>
         modify (set_file (file_of_text (take n (dumps ts)))) ;;;
         raise OSError
     end)%py.

(** [self.listbox.delete(0, tk.END)]: no rows, hence nothing selected. *)
Definition listbox_delete_all : M unit :=
  modify (fun s => set_lb_sel [] (set_lb_rows [] s)).

(** [self.listbox.insert(tk.END, text)] *)
Definition listbox_insert_end (l : pystr) : M unit :=
  modify (fun s => set_lb_rows (lb_rows s ++ [mkRow l false]) s).

(** [self.listbox.itemconfig(i, fg="gray")] inside [try ... except
    tk.TclError: pass]: a row that does not exist is left alone. *)
Definition listbox_gray (i : nat) : M unit :=
  modify (fun s => set_lb_rows (alter (fun r => mkRow (line r) true) i (lb_rows s)) s).

(** [self.listbox.selection_set(i)]: selects row [i] if there is one. *)
Definition selection_set (i : nat) : M unit :=
  modify (fun s =>
    if bool_decide (i < length (lb_rows s))%nat then
      set_lb_sel (filter (fun j => j < i)%nat (lb_sel s) ++ [i]
                  ++ filter (fun j => i < j)%nat (lb_sel s)) s
    else s).

(* ===================================================================== *)
(** ** [save_tasks] and the methods of [TodoGUI]                          *)
(* ===================================================================== *)

(** [save_tasks(tasks)] *)
Definition save_tasks (ts : list Task) : M unit :=
  write_json ts.

(** [self.save()] *)
Definition save : M unit :=
  (ts <- gets tasks ;;; save_tasks ts)%py.

(** [self._format_line(t)] *)
Definition _format_line (t : Task) : pystr :=
  (if done t then [9989] else [11036]) ++ py "  " ++ text t.

(** [sum(1 for t in self.tasks if t["done"])] *)
Definition count_done (ts : list Task) : Z :=
  Z.of_nat (length (filter (fun t => done t = true) ts)).

(** [self._refresh_list()] *)
Definition _refresh_list : M unit :=
  (listbox_delete_all ;;;
   ts <- gets tasks ;;;
   for_each ts (fun t => listbox_insert_end (_format_line t)) ;;;
   ts <- gets tasks ;;;
   let total := Z.of_nat (length ts) in
   let done_ := count_done ts in
   modify (set_status (int_str done_ ++ py "/" ++ int_str total
                       ++ py " completed " ++ [8226] ++ py " saved in "
                       ++ py "todo_gui.json")) ;;;
   ts <- gets tasks ;;;
   for_each (imap pair ts)
     (fun it => if done it.2 then listbox_gray it.1 else ret tt))%py.

(** [self._selected_index()] *)
Definition _selected_index : M (option nat) :=
  (sel <- gets lb_sel ;;;
   ret (match sel with [] => None | i :: _ => Some i end))%py.

(** [self.tasks[idx]]: [IndexError] beyond the end of the list. *)
Definition task_at (idx : nat) : M Task :=
  (ts <- gets tasks ;;;
   match ts !! idx with
   | Some t => ret t
   | None => raise IndexError
   end)%py.

(** [self.add_task()] *)
Definition add_task : M unit :=
  (raw <- gets task_var ;;;
   let text := strip raw in
   match text with
   | [] => showinfo (py "Empty task") (py "Type a task first.")
   | _ =>
       modify (fun s => set_tasks (tasks s ++ [mkTask text false]) s) ;;;
       modify (set_task_var []) ;;;
       save ;;;
       _refresh_list
   end)%py.

(** [self.toggle_done()] *)
Definition toggle_done : M unit :=
  (idx <- _selected_index ;;;
   match idx with
   | None => showinfo (py "No selection") (py "Select a task to toggle.")
   | Some idx =>
       t <- task_at idx ;;;
       let flipped := negb (done t) in
       _ <- task_at idx ;;;
       modify (fun s =>
         set_tasks (alter (fun t => mkTask (text t) flipped) idx (tasks s)) s) ;;;
       save ;;;
       _refresh_list ;;;
       selection_set idx
   end)%py.

(** [self.delete_task()]; [answer] is what the user replies if asked. *)
Definition delete_task (answer : bool) : M unit :=
  (idx <- _selected_index ;;;
   match idx with
   | None => showinfo (py "No selection") (py "Select a task to delete.")
   | Some idx =>
       t <- task_at idx ;;;
       yes <- askyesno (py "Delete task")
                (py "Delete this task?" ++ [10; 10] ++ text t) answer ;;;
       if negb yes then ret tt
       else
         ts <- gets tasks ;;;
         (if bool_decide (idx < length ts)%nat
          then modify (set_tasks (delete idx ts))
          else raise IndexError) ;;;
         save ;;;
         _refresh_list
   end)%py.

(** [self.clear_completed()] *)
Definition clear_completed : M unit :=
  (before <- gets (fun s => Z.of_nat (length (tasks s))) ;;;
   modify (fun s => set_tasks (filter (fun t => done t = false) (tasks s)) s) ;;;
   now_ <- gets (fun s => Z.of_nat (length (tasks s))) ;;;
   let removed := (before - now_)%Z in
   save ;;;
   _refresh_list ;;;
   showinfo (py "Cleared")
     (py "Removed " ++ int_str removed ++ py " completed task(s)."))%py.

(** [self.on_quit()]; closing the window changes nothing modelled here. *)
Definition on_quit : M unit := save.

Section Startup.
Variable repr : json -> pystr.

(** [TodoGUI()]: the state when [__init__] returns, on a disk in state [f]
    that is writable or not, its writes failing as [how] says when it is
    not.  An exception of [load_tasks] leaves [__init__]: no window. *)
Definition startup (f : FileState) (w : bool) (how : option nat) : res State :=
  res_bind (load_tasks repr f) (fun ts =>
  Ret (after _refresh_list (mkState ts [] [] [] [] f w how []))).

End Startup.

(* ===================================================================== *)
(** ** What the specification talks about                                 *)
(* ===================================================================== *)

(** The invariant of the task list: no text is empty after trimming. *)
Definition task_ok (t : Task) : Prop := strip (text t) <> [].
Definition tasks_inv (ts : list Task) : Prop := Forall task_ok ts.

(** The events a callback added to the trace. *)
Definition emitted {A} (m : M A) (s : State) : list event :=
  drop (length (trace s)) (trace (after m s)).

(** The three notices of the presentation layer. *)
Definition empty_input : event :=
  ShowInfo (py "Empty task") (py "Type a task first.").
Definition no_selection_toggle : event :=
  ShowInfo (py "No selection") (py "Select a task to toggle.").
Definition no_selection_delete : event :=
  ShowInfo (py "No selection") (py "Select a task to delete.").
Definition removed_notice (n : Z) : event :=
  ShowInfo (py "Cleared") (py "Removed " ++ int_str n ++ py " completed task(s).").

(** The record of the specification's [load]: an object with a [text]
    field gives a task, anything else gives none. *)
Definition record_task (repr : json -> pystr) (item : json) : option Task :=
  match item with
  | JObj d =>
      match dict_get (py "text") d with
      | Some v =>
          Some {| text := py_str repr v;
                  done := match dict_get (py "done") d with
                          | Some b => py_bool b
                          | None => false
                          end |}
      | None => None
      end
  | _ => None
  end.

(** The specification's [load]: the tasks of the records of a sequence, in
    order; the empty sequence for every other file. *)
Definition load_spec (repr : json -> pystr) (f : FileState) : list Task :=
  match f with
  | Document (JArr items) => omap (record_task repr) items
  | _ => []
  end.

(** The rows [_refresh_list] shows for a task list, and its status line. *)
Definition rows_of (ts : list Task) : list Row :=
  (fun t => mkRow (_format_line t) (done t)) <$> ts.
Definition status_of (ts : list Task) : pystr :=
  int_str (count_done ts) ++ py "/" ++ int_str (Z.of_nat (length ts))
  ++ py " completed " ++ [8226] ++ py " saved in " ++ py "todo_gui.json".

(** A stand-in for [repr] in examples whose records hold strings only. *)
Definition no_repr : json -> pystr := fun _ => [].

(** The user clicks row [i] of the listbox (select mode [browse]). *)
Definition click_row (i : nat) : M unit :=
  modify (fun s =>
    if bool_decide (i < length (lb_rows s))%nat then set_lb_sel [i] s else s).

(** The state [_refresh_list] leaves: the listbox and the status line show
    the task list, and no row is selected. *)
Definition refreshed (s : State) : State :=
  mkState (tasks s) (task_var s) (status_of (tasks s)) (rows_of (tasks s)) []
          (file s) (writable s) (torn s) (trace s).

(** The file after an attempt to write the task list [ts]: the text of
    the list when the write succeeds; the file of before when [open]
    refuses; what has been written of the text when the write breaks
    off. *)
Definition disk_after (ts : list Task) (s : State) : FileState :=
  if writable s then file_of_text (dumps ts)
  else match torn s with
       | None => file s
       | Some n => file_of_text (take n (dumps ts))
       end.

(** The state after an attempt to write the task list [ts] to the disk. *)
Definition written (ts : list Task) (s : State) : State :=
  set_file (disk_after ts s) (emit (WriteText (tasks_to_json ts)) s).

(** How a callback ends when its last possible failure is the write. *)
Definition write_outcome (s : State) : res unit :=
  if writable s then Ret tt else Raise OSError.

(** The end of every mutating callback, [self.save()] followed by
    [self._refresh_list()]: the write is attempted; the display follows
    only if the write did not raise. *)
Definition committed (s : State) : State * res unit :=
  if writable s
  then (refreshed (written (tasks s) s), Ret tt)
  else (written (tasks s) s, Raise OSError).

(** A task with its [done] flag flipped. *)
Definition flip_done (t : Task) : Task := mkTask (text t) (negb (done t)).

(** The list after [add_task] accepted the content of the entry. *)
Definition appended (s : State) : list Task :=
  tasks s ++ [mkTask (strip (task_var s)) false].

(** The question [delete_task] asks about a task. *)
Definition delete_question (t : Task) (answer : bool) : event :=
  AskYesNo (py "Delete task") (py "Delete this task?" ++ [10; 10] ++ text t) answer.

(** A record of the file whose task, if it gives one, has a text that is
    not blank; and a file whose records all are so. *)
Definition record_ok (repr : json -> pystr) (item : json) : Prop :=
  match record_task repr item with
  | Some t => task_ok t
  | None => True
  end.
Definition file_texts_ok (repr : json -> pystr) (f : FileState) : Prop :=
  match f with
  | Document (JArr items) => Forall (record_ok repr) items
  | _ => True
  end.

(** A file whose path can be examined: [exists] answers. *)
Definition accessible (f : FileState) : Prop := f <> Inaccessible.

(** The code points of Python's [str] lie below [0x110000]. *)
Definition is_str (s : pystr) : Prop := Forall (fun c => c < 1114112) s.

(** The string read back where [s] was written: every high surrogate that
    is directly followed by a low surrogate has become one character with
    it. *)
Fixpoint merge_pairs (s : pystr) : pystr :=
  match s with
  | [] => []
  | c :: s' =>
      match s' with
      | c2 :: s'' =>
          if is_high c && is_low c2
          then join_surrogates c c2 :: merge_pairs s''
          else c :: merge_pairs s'
      | [] => [c]
      end
  end.

(** The task read back where [t] was written. *)
Definition reread (t : Task) : Task := mkTask (merge_pairs (text t)) (done t).



(** After the escape of the high surrogate [c], the text [rest] does not
    go on with the escape of a low surrogate and one more character. *)
Definition peek_free (c : N) (rest : pystr) : Prop :=
  is_high c = true ->
  forall g1 g2 g3 g4 x t4,
    rest = 92 :: 117 :: g1 :: g2 :: g3 :: g4 :: x :: t4 ->
    exists u2, hex4 g1 g2 g3 g4 = Some u2 /\ is_low u2 = false.

(** Example data: the four tasks of the specification's example, a window
    showing them, and files. *)
Definition demo_tasks : list Task :=
  [mkTask (py "A") false; mkTask (py "B") true;
   mkTask (py "C") true; mkTask (py "D") false].

Definition demo_state (entry : pystr) (sel : list nat) (w : bool) : State :=
  mkState demo_tasks entry (status_of demo_tasks) (rows_of demo_tasks) sel
          (Document (tasks_to_json demo_tasks)) w None [].

Definition blank_text_file : FileState :=
  Document (JArr [JObj [(py "text", JStr [])]]).

Definition spec_example_file : FileState :=
  Document (JArr [JObj [(py "text", JStr (py "x"))];
                  JObj [(py "foo", JStr (py "bar"))];
                  JObj [(py "text", JStr (py "y")); (py "done", JBool true)]]).

(** A window over the single task [A] on a disk that cannot be written. *)
Definition one_task_file : FileState :=
  Document (JArr [JObj [(py "text", JStr (py "A"))]]).
Definition one_task_state : State :=
  mkState [mkTask (py "A") false] [] (status_of [mkTask (py "A") false])
          (rows_of [mkTask (py "A") false]) [] one_task_file false None [].


(** The window over the four tasks on a disk whose writes break off after
    [n] characters. *)
Definition torn_state (n : nat) : State :=
  mkState demo_tasks [] (status_of demo_tasks) (rows_of demo_tasks) []
          (Document (tasks_to_json demo_tasks)) false (Some n) [].

(** The same window after the user selected the row and confirmed its
    deletion: the write raised, so the listbox still shows the row. *)
Definition stale_state : State :=
  after (delete_task true) (after (click_row 0) one_task_state).

(* ===================================================================== *)
(** ** The user at the window                                             *)
(* ===================================================================== *)

(** What the user can do to the window [_build_ui] builds: edit the
    entry, select a row of the listbox, and trigger one of the callbacks
    bound to the buttons and keys ([Return] in the entry and the Add
    button run [add_task]; a double click on a row, which selects it
    first, and the Toggle button run [toggle_done]; the [Delete] key and
    the Delete button run [delete_task], the user answering its question;
    the Clear Completed button runs [clear_completed]; the Save button
    runs [save]).  The Quit button ends the run; it is [on_quit_window]
    below. *)
Inductive gesture : Type :=
| TypeEntry (txt : pystr)
| ClickRow (i : nat)
| PressAdd
| PressToggle
| PressDelete (answer : bool)
| PressClear
| PressSave.

(** The callback a gesture runs. *)
Definition dispatch (g : gesture) : M unit :=
  match g with
  | TypeEntry txt => modify (set_task_var txt)
  | ClickRow i => click_row i
  | PressAdd => add_task
  | PressToggle => toggle_done
  | PressDelete answer => delete_task answer
  | PressClear => clear_completed
  | PressSave => save
  end.

(** The event loop: the gestures are served one after the other; an
    exception a callback raises is reported and the loop goes on with the
    state the callback left.  The result is the final state and how each
    callback ended. *)
Fixpoint run (gs : list gesture) (s : State) : State * list (res unit) :=
  match gs with
  | [] => (s, [])
  | g :: gs' =>
      let r := dispatch g s in
      let rest := run gs' r.1 in
      (rest.1, r.2 :: rest.2)
  end.


(** The display shows the task list. *)
Definition in_sync (s : State) : Prop :=
  lb_rows s = rows_of (tasks s) /\ status s = status_of (tasks s).

(** Every selected row is a row of the listbox. *)
Definition sel_valid (s : State) : Prop :=
  Forall (fun i => (i < length (lb_rows s))%nat) (lb_sel s).

Definition well_formed (s : State) : Prop := in_sync s /\ sel_valid s.

(** Starting the program again would load the list that is in memory. *)
Definition disk_ok (repr : json -> pystr) (s : State) : Prop :=
  load_tasks repr (file s) = Ret (tasks s).

(** What one gesture does to the file on a writable disk: nothing, the
    list staying as it is, or a write of the list it leaves. *)
Definition file_follows (s s' : State) : Prop :=
  (file s' = file s /\ tasks s' = tasks s)
  \/ file s' = file_of_text (dumps (tasks s')).



(** A record that [load_tasks] keeps: an object with a [text] member. *)
Definition has_text (item : json) : bool :=
  match item with
  | JObj d => dict_has (py "text") d
  | _ => false
  end.

(** How a callback can end: it only showed a dialog; it raised
    [IndexError] at once; it changed the list and went through the save
    and the refresh, after which it may have selected a row or shown a
    notice. *)
Inductive ending (s : State) : State * res unit -> Prop :=
| end_dialog (e : event) : ending s (emit e s, Ret tt)
| end_index : ending s (s, Raise IndexError)
| end_commit (s1 : State) :
    lb_rows s1 = lb_rows s -> status s1 = status s -> lb_sel s1 = lb_sel s ->
    writable s1 = writable s -> file s1 = file s ->
    ending s (committed s1)
| end_commit_select (s1 : State) (i : nat) :
    writable s1 = true -> writable s = true ->
    (i < length (tasks s1))%nat ->
    ending s (set_lb_sel [i] (committed s1).1, Ret tt)
| end_commit_notice (s1 : State) (e : event) :
    writable s1 = true -> writable s = true ->
    ending s (emit e (committed s1).1, Ret tt).

(** Deciding that the texts of concrete tasks are not blank. *)
Ltac nonblank := vm_compute; discriminate.
Ltac all_nonblank := repeat (constructor; try nonblank).

(** Linear arithmetic with division and remainder by constants. *)
Ltac div_lia := zify; Z.to_euclidean_division_equations; lia.

(* ===================================================================== *)
(** ** Trimming                                                           *)
(* ===================================================================== *)

Section DropWhile.
Context {A : Type} (p : A -> bool).

Lemma drop_while_head (l : list A) x l' :
  drop_while p l = x :: l' -> p x = false.
Proof.
  induction l as [|y l IH]; simpl; [discriminate|].
  destruct (p y) eqn:Hy; [exact IH|].
  intros [= -> _]. exact Hy.
Qed.

Lemma drop_while_fixed (l : list A) x l' :
  l = x :: l' -> p x = false -> drop_while p l = l.
Proof. intros -> Hx. simpl. now rewrite Hx. Qed.

Lemma drop_while_split (l : list A) :
  exists c, l = c ++ drop_while p l /\ forallb p c = true.
Proof.
  induction l as [|y l (c & Hc & Hall)]; simpl.
  - now exists [].
  - destruct (p y) eqn:Hy.
    + exists (y :: c). simpl. rewrite Hy. split; [now f_equal | exact Hall].
    + now exists [].
Qed.

Lemma drop_while_all (l : list A) :
  forallb p l = true -> drop_while p l = [].
Proof.
  induction l as [|y l IH]; simpl; [reflexivity|].
  destruct (p y); simpl; [exact IH | discriminate].
Qed.

End DropWhile.

Lemma strip_nil : strip [] = [].
Proof. reflexivity. Qed.

(** Trimming a trimmed string changes nothing. *)
Lemma strip_idempotent (s : pystr) : strip (strip s) = strip s.
Proof.
  unfold strip, rstrip, lstrip.
  set (a := drop_while is_space s).
  destruct (drop_while is_space (reverse a)) as [|y b] eqn:Hb; [reflexivity|].
  pose proof (drop_while_head _ _ _ _ Hb) as Hy.
  destruct (drop_while_split is_space (reverse a)) as (c & Hc & _).
  rewrite Hb in Hc.
  assert (Ha : a = reverse (y :: b) ++ reverse c).
  { rewrite <- reverse_app, <- Hc. now rewrite reverse_involutive. }
  destruct a as [|x a'] eqn:Ea.
  { apply (f_equal length) in Ha.
    rewrite length_app, !length_reverse in Ha. simpl in Ha. lia. }
  assert (Hx : is_space x = false) by (eapply drop_while_head; exact Ea).
  assert (Hfix : drop_while is_space (reverse (y :: b)) = reverse (y :: b)).
  { destruct (reverse (y :: b)) as [|z r] eqn:Er.
    - apply (f_equal length) in Er. rewrite length_reverse in Er. discriminate.
    - simpl in Ha. injection Ha as <- _. simpl. now rewrite Hx. }
  rewrite Hfix, reverse_involutive.
  simpl. now rewrite Hy.
Qed.

(** A string is blank after trimming exactly when it is all whitespace. *)
Lemma strip_empty_iff (s : pystr) :
  strip s = [] <-> forallb is_space s = true.
Proof.
  unfold strip, rstrip, lstrip. split.
  - intros H. apply (f_equal reverse) in H.
    rewrite reverse_involutive in H. change (reverse []) with (@nil N) in H.
    destruct (drop_while_split is_space (reverse (drop_while is_space s)))
      as (c & Hc & Hall).
    rewrite H, app_nil_r in Hc.
    destruct (drop_while_split is_space s) as (c' & Hc' & Hall').
    rewrite Hc'. rewrite forallb_app, Hall'. simpl.
    apply (f_equal reverse) in Hc. rewrite reverse_involutive in Hc.
    rewrite Hc. clear -Hall.
    rewrite forallb_forall in *. intros x Hx. apply Hall.
    apply list_elem_of_In. apply list_elem_of_In in Hx.
    rewrite elem_of_reverse in Hx. exact Hx.
  - intros H. now rewrite (drop_while_all _ _ H).
Qed.

(* ===================================================================== *)
(** ** Writing a task list and reading the text again                     *)
(* ===================================================================== *)

Lemma lor_shiftl (a d k : N) :
  d < 2 ^ k -> N.lor (N.shiftl a k) d = a * 2 ^ k + d.
Proof.
  intros Hd. set (x := a * 2 ^ k + d).
  rewrite <- (N.lor_ldiff_and x (N.ones k)).
  rewrite N.ldiff_ones_r, N.land_ones, N.shiftr_div_pow2, !N.shiftl_mul_pow2.
  assert (H2 : 2 ^ k <> 0) by (apply N.pow_nonzero; discriminate).
  f_equal.
  - f_equal. apply (N.div_unique x (2 ^ k) a d); [exact Hd | subst x; lia].
  - apply (N.mod_unique x (2 ^ k) a d); [exact Hd | subst x; lia].
Qed.

Lemma hex_val_digit (d : N) : d < 16 -> hex_val (hex_digit d) = Some d.
Proof.
  intros H. unfold hex_val, hex_digit.
  destruct (d <? 10) eqn:E.
  - apply N.ltb_lt in E.
    replace ((48 <=? 48 + d) && (48 + d <=? 57)) with true
      by (symmetry; apply andb_true_intro; split; apply N.leb_le; lia).
    f_equal. lia.
  - apply N.ltb_ge in E.
    replace ((48 <=? 87 + d) && (87 + d <=? 57)) with false
      by (symmetry; apply andb_false_intro2; apply N.leb_gt; lia).
    replace ((97 <=? 87 + d) && (87 + d <=? 102)) with true
      by (symmetry; apply andb_true_intro; split; apply N.leb_le; lia).
    f_equal. lia.
Qed.

Lemma nibble_lt (x : N) : N.land x 15 < 16.
Proof. change 15 with (N.ones 4). rewrite N.land_ones. apply N.mod_lt. discriminate. Qed.

Lemma hex4_u_escape (c : N) :
  c < 65536 ->
  exists h1 h2 h3 h4,
    u_escape c = [92; 117; h1; h2; h3; h4]
    /\ hex4 h1 h2 h3 h4 = Some c.
Proof.
  intros Hc. do 4 eexists. split; [reflexivity|].
  unfold hex4. rewrite !hex_val_digit by apply nibble_lt. cbn [mbind option_bind].
  f_equal.
  rewrite !(lor_shiftl _ _ 4) by apply nibble_lt.
  change 15 with (N.ones 4). rewrite !N.land_ones, !N.shiftr_div_pow2.
  change (2 ^ 4) with 16. change (2 ^ 8) with 256. change (2 ^ 12) with 4096.
  div_lia.
Qed.

Lemma scanstring_plain (c : N) (t : pystr) :
  (c =? 34) = false -> (c <? 32) = false -> (c =? 92) = false ->
  scanstring (c :: t) = cons_char c (scanstring t).
Proof. intros H1 H2 H3. cbn [scanstring]. now rewrite H1, H2, H3. Qed.

Lemma scanstring_short (e c : N) (t : pystr) :
  (e =? 117) = false -> short_escape e = Some c ->
  scanstring (92 :: e :: t) = cons_char c (scanstring t).
Proof.
  intros H1 H2. cbn [scanstring].
  change (92 =? 34) with false. change (92 <? 32) with false.
  change (92 =? 92) with true. cbn [negb]. now rewrite H1, H2.
Qed.

Lemma scanstring_u (h1 h2 h3 h4 : N) (t3 : pystr) :
  scanstring (92 :: 117 :: h1 :: h2 :: h3 :: h4 :: t3)
  = match t3 with
    | [] => Raise JSONDecodeError
    | _ :: _ =>
        match hex4 h1 h2 h3 h4 with
        | None => Raise JSONDecodeError
        | Some u =>
            match t3 with
            | b :: u' :: g1 :: g2 :: g3 :: g4 :: ((_ :: _) as t4) =>
                if is_high u && (b =? 92) && (u' =? 117) then
                  match hex4 g1 g2 g3 g4 with
                  | None => Raise JSONDecodeError
                  | Some u2 =>
                      if is_low u2
                      then cons_char (join_surrogates u u2) (scanstring t4)
                      else cons_char u (scanstring t3)
                  end
                else cons_char u (scanstring t3)
            | _ => cons_char u (scanstring t3)
            end
        end
    end.
Proof. destruct t3; reflexivity. Qed.

Lemma scanstring_bmp (c : N) (rest : pystr) :
  c < 65536 -> rest <> [] -> peek_free c rest ->
  scanstring (u_escape c ++ rest) = cons_char c (scanstring rest).
Proof.
  intros Hc Hne Hpeek.
  destruct (hex4_u_escape c Hc) as (h1 & h2 & h3 & h4 & -> & Hhex).
  cbn [Datatypes.app]. rewrite scanstring_u, Hhex.
  destruct rest as [|b rest]; [congruence|].
  destruct (is_high c) eqn:Hh; cbn [andb].
  - specialize (Hpeek Hh).
    destruct rest as [|u' [|g1 [|g2 [|g3 [|g4 [|x t4]]]]]]; try reflexivity.
    destruct ((b =? 92) && (u' =? 117)) eqn:Hb; [|reflexivity].
    apply andb_true_iff in Hb as [Hb Hu].
    apply N.eqb_eq in Hb as ->. apply N.eqb_eq in Hu as ->.
    destruct (Hpeek _ _ _ _ _ _ eq_refl) as (u2 & -> & ->). reflexivity.
  - destruct rest as [|u' [|g1 [|g2 [|g3 [|g4 [|x t4]]]]]]; reflexivity.
Qed.

Lemma join_split (c : N) :
  65536 <= c -> c < 1114112 ->
  55232 + N.shiftr c 10 < 65536
  /\ 56320 + N.land c 1023 < 65536
  /\ is_high (55232 + N.shiftr c 10) = true
  /\ is_low (56320 + N.land c 1023) = true
  /\ join_surrogates (55232 + N.shiftr c 10) (56320 + N.land c 1023) = c.
Proof.
  intros H1 H2. unfold is_high, is_low, join_surrogates.
  rewrite (lor_shiftl _ _ 10) by (change 1023 with (N.ones 10); rewrite N.land_ones; apply N.mod_lt; discriminate).
  change 1023 with (N.ones 10). rewrite !N.land_ones, !N.shiftr_div_pow2.
  change (2 ^ 10) with 1024.
  repeat split; try (apply andb_true_intro; split; apply N.leb_le); div_lia.
Qed.

Lemma scanstring_astral (c : N) (rest : pystr) :
  65536 <= c -> c < 1114112 -> rest <> [] ->
  scanstring (u_escape (55232 + N.shiftr c 10)
              ++ u_escape (56320 + N.land c 1023) ++ rest)
  = cons_char c (scanstring rest).
Proof.
  intros H1 H2 Hne.
  destruct (join_split c H1 H2) as (Hhi & Hlo & Hh & Hl & Hj).
  destruct (hex4_u_escape _ Hhi) as (h1 & h2 & h3 & h4 & -> & Hhex).
  destruct (hex4_u_escape _ Hlo) as (g1 & g2 & g3 & g4 & -> & Hhex').
  cbn [Datatypes.app]. rewrite scanstring_u, Hhex.
  destruct rest as [|x rest]; [congruence|].
  rewrite Hh. change (92 =? 92) with true. change (117 =? 117) with true.
  cbn [andb]. now rewrite Hhex', Hl, Hj.
Qed.

(** One character of a string, written and read again. *)
Lemma scan_char (c : N) (rest : pystr) :
  c < 1114112 -> rest <> [] -> peek_free c rest ->
  scanstring (escape_char c ++ rest) = cons_char c (scanstring rest).
Proof.
  intros Hc Hne Hpeek. unfold escape_char.
  destruct (c =? 34) eqn:E34.
  { apply N.eqb_eq in E34 as ->. now apply scanstring_short. }
  destruct (c =? 92) eqn:E92.
  { apply N.eqb_eq in E92 as ->. now apply scanstring_short. }
  destruct ((32 <=? c) && (c <=? 126)) eqn:Eprint.
  { apply andb_true_iff in Eprint as [Hlo _]. apply N.leb_le in Hlo.
    apply scanstring_plain; [exact E34 | apply N.ltb_ge; lia | exact E92]. }
  destruct (c =? 8) eqn:E8.
  { apply N.eqb_eq in E8 as ->. now apply scanstring_short. }
  destruct (c =? 12) eqn:E12.
  { apply N.eqb_eq in E12 as ->. now apply scanstring_short. }
  destruct (c =? 10) eqn:E10.
  { apply N.eqb_eq in E10 as ->. now apply scanstring_short. }
  destruct (c =? 13) eqn:E13.
  { apply N.eqb_eq in E13 as ->. now apply scanstring_short. }
  destruct (c =? 9) eqn:E9.
  { apply N.eqb_eq in E9 as ->. now apply scanstring_short. }
  destruct (c <? 65536) eqn:Ebmp.
  - apply N.ltb_lt in Ebmp. now apply scanstring_bmp.
  - apply N.ltb_ge in Ebmp. rewrite <- app_assoc. now apply scanstring_astral.
Qed.

Lemma peek_quote (c : N) (r : pystr) : peek_free c (34 :: r).
Proof. intros _ g1 g2 g3 g4 x t4 [=]. Qed.

Lemma peek_after (c c2 : N) (rest : pystr) :
  c2 < 1114112 -> is_low c2 = false -> peek_free c (escape_char c2 ++ rest).
Proof.
  intros Hc Hlow _ g1 g2 g3 g4 x t4. unfold escape_char.
  destruct (c2 =? 34); [intros [=]|].
  destruct (c2 =? 92) eqn:E92; [intros [=]|].
  destruct ((32 <=? c2) && (c2 <=? 126)).
  { intros [= -> _]. discriminate. }
  destruct (c2 =? 8); [intros [=]|].
  destruct (c2 =? 12); [intros [=]|].
  destruct (c2 =? 10); [intros [=]|].
  destruct (c2 =? 13); [intros [=]|].
  destruct (c2 =? 9); [intros [=]|].
  destruct (c2 <? 65536) eqn:Ebmp.
  - apply N.ltb_lt in Ebmp.
    destruct (hex4_u_escape c2 Ebmp) as (h1 & h2 & h3 & h4 & -> & Hhex).
    intros [= <- <- <- <- _]. eauto.
  - apply N.ltb_ge in Ebmp.
    destruct (join_split c2 Ebmp Hc) as (Hhi & _ & Hh & _ & _).
    destruct (hex4_u_escape _ Hhi) as (h1 & h2 & h3 & h4 & -> & Hhex).
    intros [= <- <- <- <- _]. eexists. split; [exact Hhex|].
    unfold is_high in Hh. unfold is_low.
    apply andb_true_iff in Hh as [_ Hh]. apply N.leb_le in Hh.
    apply andb_false_intro1. apply N.leb_gt. lia.
Qed.

Lemma escape_char_nonempty (c : N) : escape_char c <> [].
Proof.
  unfold escape_char, u_escape.
  repeat match goal with |- context [if ?b then _ else _] => destruct b end;
    discriminate.
Qed.

Lemma escaped_cons (c : N) (s : pystr) :
  escaped (c :: s) = escape_char c ++ escaped s.
Proof. reflexivity. Qed.

(** The merge of a high and a low surrogate that follow each other. *)
Lemma scan_pair (c c2 : N) (rest : pystr) :
  is_high c = true -> is_low c2 = true -> rest <> [] ->
  scanstring (escape_char c ++ escape_char c2 ++ rest)
  = cons_char (join_surrogates c c2) (scanstring rest).
Proof.
  intros Hh Hl Hne.
  assert (Hc : 55296 <= c /\ c <= 56319).
  { unfold is_high in Hh. apply andb_true_iff in Hh as [H1 H2].
    apply N.leb_le in H1. apply N.leb_le in H2. lia. }
  assert (Hc2 : 56320 <= c2 /\ c2 <= 57343).
  { unfold is_low in Hl. apply andb_true_iff in Hl as [H1 H2].
    apply N.leb_le in H1. apply N.leb_le in H2. lia. }
  assert (He : forall x, 55296 <= x -> x <= 57343 -> escape_char x = u_escape x).
  { intros x H1 H2. unfold escape_char.
    rewrite !(proj2 (N.eqb_neq _ _)) by lia.
    replace ((32 <=? x) && (x <=? 126)) with false
      by (symmetry; apply andb_false_intro2; apply N.leb_gt; lia).
    now rewrite (proj2 (N.ltb_lt _ _)) by lia. }
  rewrite !He by lia.
  destruct (hex4_u_escape c) as (h1 & h2 & h3 & h4 & -> & Hhex); [lia|].
  destruct (hex4_u_escape c2) as (g1 & g2 & g3 & g4 & -> & Hhex'); [lia|].
  cbn [Datatypes.app]. rewrite scanstring_u, Hhex.
  destruct rest as [|x rest]; [congruence|].
  rewrite Hh. change (92 =? 92) with true. change (117 =? 117) with true.
  cbn [andb]. now rewrite Hhex', Hl.
Qed.

Lemma scan_escaped_aux (n : nat) :
  forall s r, (length s < n)%nat -> is_str s ->
    scanstring (escaped s ++ 34 :: r) = Ret (merge_pairs s, r).
Proof.
  induction n as [|n IH]; intros s r Hlen Hs; [lia|].
  destruct s as [|c s]; [reflexivity|].
  apply Forall_cons in Hs as [Hc Hs].
  rewrite escaped_cons, <- app_assoc.
  destruct s as [|c2 s].
  - cbn [escaped mbind list_bind Datatypes.app merge_pairs].
    rewrite scan_char; [reflexivity | exact Hc | discriminate | apply peek_quote].
  - pose proof Hs as Hs'. apply Forall_cons in Hs' as [Hc2 Hs2].
    cbn [merge_pairs]. destruct (is_high c && is_low c2) eqn:Hpair.
    + apply andb_true_iff in Hpair as [Hh Hl].
      rewrite escaped_cons, <- app_assoc.
      rewrite scan_pair; [|exact Hh|exact Hl|now destruct (escaped s)].
      rewrite IH; [reflexivity | simpl in Hlen; lia | exact Hs2].
    + rewrite scan_char; [|exact Hc| |].
      * rewrite IH; [reflexivity | simpl in *; lia | exact Hs].
      * rewrite escaped_cons, <- app_assoc.
        pose proof (escape_char_nonempty c2). now destruct (escape_char c2).
      * rewrite escaped_cons, <- app_assoc.
        destruct (is_high c) eqn:Hh.
        -- apply peek_after; [exact Hc2|]. now destruct (is_low c2).
        -- intros H0. congruence.
Qed.

(** A string written by [json.dumps] and read by [json.loads]. *)
Lemma scan_escaped (s r : pystr) :
  is_str s -> scanstring (escaped s ++ 34 :: r) = Ret (merge_pairs s, r).
Proof. apply (scan_escaped_aux (S (length s))). lia. Qed.

Lemma dumps_task_shape (t : Task) (rest : pystr) :
  dumps_task t ++ rest
  = 123 :: 10 :: 32 :: 32 :: 32 :: 32 :: 34 :: 116 :: 101 :: 120 :: 116 :: 34
    :: 58 :: 32 :: 34
    :: escaped (text t)
    ++ 34 :: 44 :: 10 :: 32 :: 32 :: 32 :: 32 :: 34 :: 100 :: 111 :: 110 :: 101
       :: 34 :: 58 :: 32
       :: (if done t then py "true" else py "false")
       ++ 10 :: 32 :: 32 :: 125 :: rest.
Proof.
  unfold dumps_task, encode_string. rewrite <- !app_assoc. reflexivity.
Qed.

Lemma scan_once_true (f : nat) (r : pystr) :
  scan_once (S f) (py "true" ++ r) = Ret (JBool true, r).
Proof. reflexivity. Qed.

Lemma scan_once_false (f : nat) (r : pystr) :
  scan_once (S f) (py "false" ++ r) = Ret (JBool false, r).
Proof. reflexivity. Qed.

Lemma scan_once_bool (f : nat) (b : bool) (r : pystr) :
  scan_once (S f) ((if b then py "true" else py "false") ++ r)
  = Ret (JBool b, r).
Proof. destruct b; reflexivity. Qed.

Lemma scan_once_string (f : nat) (s r : pystr) :
  is_str s ->
  scan_once (S f) (34 :: escaped s ++ 34 :: r) = Ret (JStr (merge_pairs s), r).
Proof.
  intros Hs. cbn [scan_once]. change (34 =? 34) with true. cbv iota.
  now rewrite scan_escaped.
Qed.


Lemma scan_once_object (f : nat) (t1 t2 : pystr) :
  skip_ws t1 = 34 :: t2 ->
  scan_once (S f) (123 :: t1) = parse_members f (34 :: t2) [].
Proof. intros H. cbn [scan_once]. now rewrite H. Qed.

Lemma scan_once_quote (f : nat) (t : pystr) :
  scan_once (S f) (34 :: t)
  = res_bind (scanstring t) (fun sr => Ret (JStr sr.1, sr.2)).
Proof. reflexivity. Qed.

(** One member of an object whose value may be refused. *)
Lemma parse_member_value (f : nat) (k vtext : pystr)
    (acc : list (pystr * json)) :
  is_str k -> skip_ws vtext = vtext ->
  parse_members (S f) (34 :: escaped k ++ 34 :: 58 :: 32 :: vtext) acc
  = res_bind (scan_once f vtext) (fun vr =>
    match skip_ws vr.2 with
    | c' :: t3 =>
        if c' =? 125 then Ret (JObj (acc ++ [(merge_pairs k, vr.1)]), t3)
        else if c' =? 44
        then parse_members f (skip_ws t3) (acc ++ [(merge_pairs k, vr.1)])
        else Raise JSONDecodeError
    | [] => Raise JSONDecodeError
    end).
Proof.
  intros Hk Hws. cbn [parse_members]. change (34 =? 34) with true.
  cbn [negb]. cbv iota. rewrite scan_escaped by exact Hk.
  cbn [res_bind fst snd].
  change (skip_ws (58 :: 32 :: vtext)) with (58 :: 32 :: vtext).
  cbv iota. change (58 =? 58) with true. cbn [negb]. cbv iota.
  change (skip_ws (32 :: vtext)) with (skip_ws vtext).
  now rewrite Hws.
Qed.

(** One member of an object: the key, the colon and the value. *)
Lemma parse_member (f : nat) (k vtext after : pystr) (v : json)
    (acc : list (pystr * json)) :
  is_str k -> skip_ws vtext = vtext ->
  scan_once f vtext = Ret (v, after) ->
  parse_members (S f) (34 :: escaped k ++ 34 :: 58 :: 32 :: vtext) acc
  = match skip_ws after with
    | c' :: t3 =>
        if c' =? 125 then Ret (JObj (acc ++ [(merge_pairs k, v)]), t3)
        else if c' =? 44
        then parse_members f (skip_ws t3) (acc ++ [(merge_pairs k, v)])
        else Raise JSONDecodeError
    | [] => Raise JSONDecodeError
    end.
Proof.
  intros Hk Hws Hv. rewrite parse_member_value by assumption. now rewrite Hv.
Qed.

Lemma is_str_ascii (s : string) : is_str (py s).
Proof.
  unfold is_str, py. apply Forall_fmap, Forall_forall. intros a _. simpl.
  pose proof (N_ascii_bounded a). lia.
Qed.

(** One task, written and read again. *)
Lemma scan_task (fuel : nat) (t : Task) (rest : pystr) :
  is_str (text t) -> (4 <= fuel)%nat ->
  scan_once fuel (dumps_task t ++ rest) = Ret (task_to_json (reread t), rest).
Proof.
  intros Hs Hfuel.
  destruct fuel as [|[|[|[|f]]]]; try lia.
  rewrite dumps_task_shape.
  rewrite (scan_once_object _ _
             (116 :: 101 :: 120 :: 116 :: 34 :: 58 :: 32 :: 34
              :: escaped (text t)
              ++ 34 :: 44 :: 10 :: 32 :: 32 :: 32 :: 32 :: 34 :: 100 :: 111
                 :: 110 :: 101 :: 34 :: 58 :: 32
                 :: (if done t then py "true" else py "false")
                 ++ 10 :: 32 :: 32 :: 125 :: rest)) by reflexivity.
  change (34 :: 116 :: 101 :: 120 :: 116 :: 34 :: ?x)
    with (34 :: escaped (py "text") ++ 34 :: x).
  rewrite (parse_member _ (py "text") _ _ _ _ (is_str_ascii "text") eq_refl
             (scan_once_string _ _ _ Hs)).
  change (skip_ws (44 :: ?x)) with (44 :: x). cbv iota.
  change (44 =? 125) with false. change (44 =? 44) with true. cbv iota.
  change (skip_ws (10 :: 32 :: 32 :: 32 :: 32 :: ?x)) with x.
  change (34 :: 100 :: 111 :: 110 :: 101 :: 34 :: ?x)
    with (34 :: escaped (py "done") ++ 34 :: x).
  etransitivity.
  { apply parse_member;
      [apply is_str_ascii | now destruct (done t) | apply scan_once_bool]. }
  reflexivity.
Qed.

Lemma dumps_task_head (t : Task) (r : pystr) :
  exists x, dumps_task t ++ r = 123 :: x.
Proof. rewrite dumps_task_shape. eauto. Qed.

Lemma dumps_items_cons (t t' : Task) (ts : list Task) :
  dumps_items (t :: t' :: ts)
  = dumps_task t ++ 44 :: 10 :: 32 :: 32 :: dumps_items (t' :: ts).
Proof. reflexivity. Qed.

Lemma dumps_items_head (ts : list Task) (r : pystr) :
  ts <> [] -> exists x, dumps_items ts ++ r = 123 :: x.
Proof.
  destruct ts as [|t [|t' ts]]; [congruence| |]; intros _.
  - apply dumps_task_head.
  - rewrite dumps_items_cons, <- app_assoc. apply dumps_task_head.
Qed.

Lemma dumps_task_length (t : Task) : (1 <= length (dumps_task t))%nat.
Proof.
  pose proof (dumps_task_shape t []) as H. rewrite app_nil_r in H.
  rewrite H. simpl. lia.
Qed.

Lemma dumps_items_length (ts : list Task) :
  (length ts <= length (dumps_items ts))%nat.
Proof.
  induction ts as [|t [|t' ts] IH]; [simpl; lia| |].
  - pose proof (dumps_task_length t). simpl. lia.
  - rewrite dumps_items_cons, length_app. pose proof (dumps_task_length t).
    simpl in *. lia.
Qed.

(** The items of the list, written and read again. *)
Lemma parse_items_tasks (ts : list Task) :
  forall (fuel : nat) (acc : list json) (rest : pystr),
    ts <> [] -> Forall (fun t => is_str (text t)) ts ->
    (length ts + 4 <= fuel)%nat ->
    parse_items fuel (dumps_items ts ++ 10 :: 93 :: rest) acc
    = Ret (JArr (acc ++ (task_to_json <$> (reread <$> ts))), rest).
Proof.
  induction ts as [|t ts IH]; intros fuel acc rest Hne Hs Hfuel; [congruence|].
  apply Forall_cons in Hs as [Ht Hs].
  destruct fuel as [|f]; [simpl in Hfuel; lia|].
  destruct ts as [|t' ts].
  - cbn [dumps_items parse_items].
    rewrite scan_task by (try assumption; simpl in Hfuel; lia).
    reflexivity.
  - rewrite dumps_items_cons, <- app_assoc. cbn [parse_items].
    rewrite scan_task by (try assumption; simpl in Hfuel; lia).
    cbn [res_bind fst snd Datatypes.app].
    change (skip_ws (44 :: ?x)) with (44 :: x). cbv iota.
    change (44 =? 93) with false. change (44 =? 44) with true. cbv iota.
    change (skip_ws (10 :: 32 :: 32 :: ?x)) with (skip_ws x).
    destruct (dumps_items_head (t' :: ts) (10 :: 93 :: rest)) as [x Hx];
      [discriminate|].
    rewrite Hx. change (skip_ws (123 :: x)) with (123 :: x). rewrite <- Hx.
    rewrite IH; [|discriminate|exact Hs|simpl in *; lia].
    rewrite <- app_assoc. reflexivity.
Qed.

(** What [json.loads] makes of the text [json.dumps] writes for a task
    list: the list, with every high surrogate that is directly followed by
    a low one merged with it into one character. *)
Lemma loads_dumps (ts : list Task) :
  Forall (fun t => is_str (text t)) ts ->
  loads (dumps ts) = Ret (tasks_to_json (reread <$> ts)).
Proof.
  intros Hs. destruct ts as [|t ts]; [reflexivity|].
  unfold dumps.
  change (py "[" ++ [10] ++ py "  " ++ dumps_items (t :: ts) ++ [10] ++ py "]")
    with (91 :: 10 :: 32 :: 32 :: dumps_items (t :: ts) ++ 10 :: 93 :: []).
  set (items := dumps_items (t :: ts) ++ 10 :: 93 :: []).
  unfold loads.
  change (skip_ws (91 :: 10 :: 32 :: 32 :: items))
    with (91 :: 10 :: 32 :: 32 :: items).
  cbn [scan_once]. change (91 =? 34) with false. change (91 =? 123) with false.
  change (91 =? 91) with true. cbv iota.
  change (skip_ws (10 :: 32 :: 32 :: items)) with (skip_ws items).
  destruct (dumps_items_head (t :: ts) (10 :: 93 :: [])) as [x Hx];
    [discriminate|].
  subst items. rewrite Hx. change (skip_ws (123 :: x)) with (123 :: x).
  cbv iota. change (123 =? 93) with false. cbv iota. rewrite <- Hx.
  rewrite parse_items_tasks; [reflexivity | discriminate | exact Hs |].
  pose proof (dumps_items_length (t :: ts)).
  cbn [length]. rewrite length_app. simpl in *. lia.
Qed.

(* ===================================================================== *)
(** ** A text that is cut short                                           *)
(* ===================================================================== *)

(** More fuel does not change a result. *)
Lemma fuel_mono (f : nat) :
  (forall t r, scan_once f t = Ret r -> scan_once (S f) t = Ret r)
  /\ (forall t acc r, parse_items f t acc = Ret r -> parse_items (S f) t acc = Ret r)
  /\ (forall t acc r, parse_members f t acc = Ret r -> parse_members (S f) t acc = Ret r).
Proof.
  induction f as [|f (IH1 & IH2 & IH3)].
  - split_and!; intros; discriminate.
  - split_and!.
    + intros t r H. cbn [scan_once] in H. cbn [scan_once].
      destruct t as [|c t1]; [discriminate|].
      destruct (c =? 34); [exact H|].
      destruct (c =? 123).
      { destruct (skip_ws t1) as [|c' t2]; [discriminate|].
        destruct (c' =? 125); [exact H|]. now apply IH3. }
      destruct (c =? 91).
      { destruct (skip_ws t1) as [|c' t2]; [discriminate|].
        destruct (c' =? 93); [exact H|]. now apply IH2. }
      exact H.
    + intros t acc r H. cbn [parse_items] in H.
      change (parse_items (S (S f)) t acc)
        with (res_bind (scan_once (S f) t) (fun vr =>
              match skip_ws vr.2 with
              | c :: t1 =>
                  if c =? 93 then Ret (JArr (acc ++ [vr.1]), t1)
                  else if c =? 44
                  then parse_items (S f) (skip_ws t1) (acc ++ [vr.1])
                  else Raise JSONDecodeError
              | [] => Raise JSONDecodeError
              end)).
      destruct (scan_once f t) as [vr|e] eqn:Hv; [|discriminate].
      rewrite (IH1 _ _ Hv). cbn [res_bind] in *.
      destruct (skip_ws vr.2) as [|c t1]; [discriminate|].
      destruct (c =? 93); [exact H|].
      destruct (c =? 44); [|discriminate]. now apply IH2.
    + intros t acc r H. cbn [parse_members] in H.
      change (parse_members (S (S f)) t acc)
        with (match t with
              | q :: t1 =>
                  if negb (q =? 34) then Raise JSONDecodeError
                  else
                    res_bind (scanstring t1) (fun kr =>
                    match skip_ws kr.2 with
                    | c :: t2 =>
                        if negb (c =? 58) then Raise JSONDecodeError
                        else
                          res_bind (scan_once (S f) (skip_ws t2)) (fun vr =>
                          match skip_ws vr.2 with
                          | c' :: t3 =>
                              if c' =? 125 then Ret (JObj (acc ++ [(kr.1, vr.1)]), t3)
                              else if c' =? 44
                              then parse_members (S f) (skip_ws t3) (acc ++ [(kr.1, vr.1)])
                              else Raise JSONDecodeError
                          | [] => Raise JSONDecodeError
                          end)
                    | [] => Raise JSONDecodeError
                    end)
              | [] => Raise JSONDecodeError
              end).
      destruct t as [|q t1]; [discriminate|].
      destruct (negb (q =? 34)); [discriminate|].
      destruct (scanstring t1) as [kr|e]; [|discriminate]. cbn [res_bind] in *.
      destruct (skip_ws kr.2) as [|c t2]; [discriminate|].
      destruct (negb (c =? 58)); [discriminate|].
      destruct (scan_once f (skip_ws t2)) as [vr|e] eqn:Hv; [|discriminate].
      rewrite (IH1 _ _ Hv). cbn [res_bind] in *.
      destruct (skip_ws vr.2) as [|c' t3]; [discriminate|].
      destruct (c' =? 125); [exact H|].
      destruct (c' =? 44); [|discriminate]. now apply IH3.
Qed.

Lemma scan_once_mono (f f' : nat) (t : pystr) (r : json * pystr) :
  (f <= f')%nat -> scan_once f t = Ret r -> scan_once f' t = Ret r.
Proof.
  induction 1 as [|f' _ IH]; [trivial|].
  intros H. now apply fuel_mono, IH.
Qed.

(** A string that is not closed is refused: the beginning of the escape
    of one character. *)
Lemma cut_u_escape (c : N) (j : nat) :
  scanstring (take j (u_escape c)) = Raise JSONDecodeError.
Proof.
  unfold u_escape. do 6 (destruct j as [|j]; [reflexivity|]).
  rewrite take_ge by (simpl; lia). reflexivity.
Qed.

Lemma cut_one (c : N) (j : nat) :
  scanstring (take j (escape_char c)) = Raise JSONDecodeError.
Proof.
  unfold escape_char.
  destruct (c =? 34) eqn:E34.
  { do 2 (destruct j as [|j]; [reflexivity|]).
    rewrite take_ge by (simpl; lia). reflexivity. }
  destruct (c =? 92) eqn:E92.
  { do 2 (destruct j as [|j]; [reflexivity|]).
    rewrite take_ge by (simpl; lia). reflexivity. }
  destruct ((32 <=? c) && (c <=? 126)) eqn:Eprint.
  { destruct j as [|j]; [reflexivity|].
    apply andb_true_iff in Eprint as [Hlo _]. apply N.leb_le in Hlo.
    rewrite take_ge by (simpl; lia).
    rewrite scanstring_plain; [reflexivity | exact E34 | apply N.ltb_ge; lia | exact E92]. }
  destruct (c =? 8).
  { do 2 (destruct j as [|j]; [reflexivity|]).
    rewrite take_ge by (simpl; lia). reflexivity. }
  destruct (c =? 12).
  { do 2 (destruct j as [|j]; [reflexivity|]).
    rewrite take_ge by (simpl; lia). reflexivity. }
  destruct (c =? 10).
  { do 2 (destruct j as [|j]; [reflexivity|]).
    rewrite take_ge by (simpl; lia). reflexivity. }
  destruct (c =? 13).
  { do 2 (destruct j as [|j]; [reflexivity|]).
    rewrite take_ge by (simpl; lia). reflexivity. }
  destruct (c =? 9).
  { do 2 (destruct j as [|j]; [reflexivity|]).
    rewrite take_ge by (simpl; lia). reflexivity. }
  destruct (c <? 65536); [apply cut_u_escape|].
  set (hi := 55232 + N.shiftr c 10). set (lo := 56320 + N.land c 1023).
  destruct (le_lt_dec j 6) as [Hj|Hj].
  - rewrite take_app_le by (simpl; lia). apply cut_u_escape.
  - rewrite take_app_ge by (simpl; lia).
    change (length (u_escape hi)) with 6%nat.
    pose proof (cut_u_escape lo (j - 6)) as Hlo.
    destruct (take (j - 6) (u_escape lo)) as [|x R] eqn:ER.
    { apply (f_equal length) in ER. rewrite length_take in ER.
      simpl in ER. lia. }
    unfold u_escape at 1. cbn [Datatypes.app]. rewrite scanstring_u.
    destruct (hex4 _ _ _ _) as [u|]; [|reflexivity].
    assert (Hlen : (length (x :: R) <= 6)%nat).
    { rewrite <- ER, length_take. simpl. lia. }
    destruct R as [|u' [|g1 [|g2 [|g3 [|g4 [|y R]]]]]];
      try (rewrite Hlo; reflexivity).
    simpl in Hlen. lia.
Qed.

Lemma escape_low (c : N) : is_low c = true -> escape_char c = u_escape c.
Proof.
  intros Hl. unfold is_low in Hl. apply andb_true_iff in Hl as [H1 H2].
  apply N.leb_le in H1. apply N.leb_le in H2. unfold escape_char.
  rewrite !(proj2 (N.eqb_neq _ _)) by lia.
  replace ((32 <=? c) && (c <=? 126)) with false
    by (symmetry; apply andb_false_intro2; apply N.leb_gt; lia).
  now rewrite (proj2 (N.ltb_lt _ _)) by lia.
Qed.

Lemma peek_free_short (c : N) (R : pystr) :
  (length R <= 6)%nat -> peek_free c R.
Proof. intros Hlen _ g1 g2 g3 g4 x t4 ->. simpl in Hlen. lia. Qed.

Lemma peek_free_take (c : N) (X : pystr) (j : nat) :
  peek_free c X -> peek_free c (take j X).
Proof.
  intros HX Hh g1 g2 g3 g4 x t4 E.
  apply (HX Hh g1 g2 g3 g4 x (t4 ++ drop j X)).
  rewrite <- (take_drop j X) at 1. now rewrite E.
Qed.

Lemma cons_char_raise (c : N) (e : exn) : cons_char c (Raise e) = Raise e.
Proof. reflexivity. Qed.

Lemma string_cut_aux (n : nat) :
  forall s j, (length s < n)%nat -> is_str s ->
    scanstring (take j (escaped s)) = Raise JSONDecodeError.
Proof.
  induction n as [|n IH]; intros s j Hlen Hs; [lia|].
  destruct s as [|c s];
    [change (escaped []) with (@nil N); now rewrite take_nil|].
  apply Forall_cons in Hs as [Hc Hs]. rewrite escaped_cons.
  destruct (le_lt_dec j (length (escape_char c))) as [Hj|Hj].
  { rewrite take_app_le by exact Hj. apply cut_one. }
  rewrite take_app_ge by lia. set (j' := (j - length (escape_char c))%nat).
  assert (HR : scanstring (take j' (escaped s)) = Raise JSONDecodeError).
  { apply IH; [simpl in Hlen; lia | exact Hs]. }
  destruct (take j' (escaped s)) as [|x R] eqn:ER.
  { rewrite app_nil_r, <- (take_ge (escape_char c) j) by lia. apply cut_one. }
  destruct s as [|c2 s2].
  { change (escaped []) with (@nil N) in ER. now rewrite take_nil in ER. }
  pose proof Hs as Hs'. apply Forall_cons in Hs' as [Hc2 Hs2].
  assert (Hplain : peek_free c (x :: R) ->
                   scanstring (escape_char c ++ x :: R) = Raise JSONDecodeError).
  { intros Hp. rewrite scan_char; [|exact Hc|discriminate|exact Hp].
    now rewrite HR. }
  destruct (is_high c && is_low c2) eqn:Hpair.
  - apply andb_true_iff in Hpair as [Hh Hl].
    rewrite escaped_cons, (escape_low c2 Hl) in ER.
    destruct (le_lt_dec j' 6) as [Hj'|Hj'].
    { apply Hplain, peek_free_short. rewrite <- ER, length_take. lia. }
    rewrite take_app_ge in ER by (simpl; lia).
    change (length (u_escape c2)) with 6%nat in ER.
    destruct (take (j' - 6) (escaped s2)) as [|y R2] eqn:ER2.
    { apply Hplain, peek_free_short. rewrite <- ER, app_nil_r. simpl. lia. }
    rewrite <- ER, <- (escape_low c2 Hl).
    rewrite scan_pair; [|exact Hh|exact Hl|discriminate].
    rewrite <- ER2, IH; [reflexivity | simpl in Hlen; lia | exact Hs2].
  - apply Hplain. rewrite <- ER. apply peek_free_take.
    rewrite escaped_cons. destruct (is_high c) eqn:Hh.
    + apply peek_after; [exact Hc2|]. now destruct (is_low c2).
    + intros H0. congruence.
Qed.

(** A string that is not closed is refused. *)
Lemma string_cut (s : pystr) (j : nat) :
  is_str s -> scanstring (take j (escaped s)) = Raise JSONDecodeError.
Proof. apply (string_cut_aux (S (length s))). lia. Qed.

Lemma dumps_task_length_eq (t : Task) :
  length (dumps_task t)
  = (15 + length (escaped (text t)) + 15 + (if done t then 4 else 5) + 4)%nat.
Proof.
  rewrite <- (app_nil_r (dumps_task t)), dumps_task_shape.
  cbn [length]. rewrite length_app. cbn [length]. rewrite length_app.
  destruct (done t); simpl; lia.
Qed.

(** A task that is cut short is refused. *)
Lemma task_cut (f : nat) (t : Task) (m : nat) :
  is_str (text t) -> (m < length (dumps_task t))%nat ->
  scan_once (S (S (S (S f)))) (take m (dumps_task t)) = Raise JSONDecodeError.
Proof.
  intros Hs Hm. rewrite dumps_task_length_eq in Hm.
  rewrite <- (app_nil_r (dumps_task t)), dumps_task_shape.
  destruct (le_lt_dec m 15) as [Hlow|Hhigh].
  { do 16 (destruct m as [|m]; [reflexivity|]). lia. }
  replace m with (15 + (m - 15))%nat by lia.
  set (j := (m - 15)%nat). cbn [take Nat.add].
  set (tail := 44 :: 10 :: 32 :: 32 :: 32 :: 32 :: 34 :: 100 :: 111 :: 110
               :: 101 :: 34 :: 58 :: 32
               :: (if done t then py "true" else py "false")
               ++ [10; 32; 32; 125]).
  rewrite (scan_once_object _ _
             (116 :: 101 :: 120 :: 116 :: 34 :: 58 :: 32 :: 34
              :: take j (escaped (text t) ++ 34 :: tail))) by reflexivity.
  change (34 :: 116 :: 101 :: 120 :: 116 :: 34 :: ?x)
    with (34 :: escaped (py "text") ++ 34 :: x).
  rewrite parse_member_value by (try apply is_str_ascii; reflexivity).
  rewrite scan_once_quote.
  destruct (le_lt_dec j (length (escaped (text t)))) as [Hj|Hj].
  { rewrite take_app_le by exact Hj. now rewrite string_cut. }
  rewrite take_app_ge by lia.
  set (j' := (j - length (escaped (text t)))%nat).
  assert (Hj' : j' = S (j' - 1)) by lia. rewrite Hj'. cbn [take].
  rewrite scan_escaped by exact Hs. cbn [res_bind fst snd].
  assert (Hb : (j' - 1 < 14 + (if done t then 4 else 5) + 4)%nat) by lia.
  clearbody j'. clear Hj Hj' Hhigh Hm. subst tail.
  generalize dependent (j' - 1)%nat. intros k Hk.
  destruct (done t).
  - do 22 (destruct k as [|k]; [reflexivity|]). simpl in Hk. lia.
  - do 23 (destruct k as [|k]; [reflexivity|]). simpl in Hk. lia.
Qed.

Lemma parse_items_nil (f : nat) (acc : list json) :
  parse_items f [] acc = Raise JSONDecodeError.
Proof. destruct f as [|[|f]]; reflexivity. Qed.

(** The items of a list that is cut short are refused. *)
Lemma items_cut (ts : list Task) :
  forall (fuel : nat) (acc : list json) (m : nat),
    ts <> [] -> Forall (fun t => is_str (text t)) ts ->
    (length ts + 4 <= fuel)%nat ->
    (m < length (dumps_items ts) + 2)%nat ->
    parse_items fuel (take m (dumps_items ts ++ [10; 93])) acc
    = Raise JSONDecodeError.
Proof.
  induction ts as [|t ts IH]; intros fuel acc m Hne Hs Hfuel Hm; [congruence|].
  apply Forall_cons in Hs as [Ht Hs].
  destruct fuel as [|[|[|[|[|f]]]]]; try (simpl in Hfuel; lia).
  set (f4 := S (S (S (S f)))) in *.
  assert (Hcut : (m < length (dumps_task t))%nat ->
                 parse_items (S f4) (take m (dumps_task t)) acc
                 = Raise JSONDecodeError).
  { intros Hlt. cbn [parse_items]. subst f4. now rewrite task_cut. }
  destruct ts as [|t' ts].
  - cbn [dumps_items] in *.
    destruct (le_lt_dec (length (dumps_task t)) m) as [Hge|Hlt].
    + rewrite take_app_ge by exact Hge. cbn [parse_items].
      rewrite scan_task by (try assumption; subst f4; lia).
      cbn [res_bind fst snd].
      destruct (m - length (dumps_task t))%nat as [|[|k]] eqn:Ek;
        [reflexivity | reflexivity | lia].
    + rewrite take_app_le by lia. now apply Hcut.
  - rewrite dumps_items_cons in *. rewrite <- app_assoc.
    rewrite length_app in Hm. cbn [length] in Hm.
    destruct (le_lt_dec (length (dumps_task t)) m) as [Hge|Hlt].
    + rewrite take_app_ge by exact Hge. cbn [parse_items].
      rewrite scan_task by (try assumption; subst f4; lia).
      cbn [res_bind fst snd Datatypes.app].
      set (k := (m - length (dumps_task t))%nat).
      assert (Hk : (k < 4 + (length (dumps_items (t' :: ts)) + 2))%nat)
        by (subst k; lia).
      clearbody k.
      destruct k as [|k]; [reflexivity|].
      cbn [take]. change (skip_ws (44 :: ?x)) with (44 :: x). cbv iota.
      change (44 =? 93) with false. change (44 =? 44) with true. cbv iota.
      do 3 (destruct k as [|k]; [apply parse_items_nil|]).
      cbn [take]. change (skip_ws (10 :: 32 :: 32 :: ?x)) with (skip_ws x).
      destruct (dumps_items_head (t' :: ts) [10; 93]) as [x Hx];
        [discriminate|].
      destruct k as [|k]; [apply parse_items_nil|].
      rewrite Hx. cbn [take].
      change (skip_ws (123 :: ?y)) with (123 :: y).
      change (123 :: take k x) with (take (S k) (123 :: x)). rewrite <- Hx.
      apply IH; [discriminate | exact Hs | simpl in *; lia | lia].
    + rewrite take_app_le by lia. now apply Hcut.
Qed.

Lemma dumps_length (ts : list Task) :
  ts <> [] -> length (dumps ts) = (4 + (length (dumps_items ts) + 2))%nat.
Proof.
  destruct ts as [|t ts]; [congruence|]. intros _. unfold dumps.
  change (py "[" ++ [10] ++ py "  " ++ dumps_items (t :: ts) ++ [10] ++ py "]")
    with (91 :: 10 :: 32 :: 32 :: dumps_items (t :: ts) ++ [10; 93]).
  cbn [length]. rewrite length_app. simpl. lia.
Qed.

(** With fuel enough, the beginning of the text of a task list is
    refused. *)
Lemma dumps_cut (ts : list Task) (fuel n : nat) :
  ts <> [] -> Forall (fun t => is_str (text t)) ts ->
  (length ts + 5 <= fuel)%nat -> (n < length (dumps ts))%nat ->
  scan_once fuel (skip_ws (take n (dumps ts))) = Raise JSONDecodeError.
Proof.
  intros Hne Hs Hfuel Hn. rewrite dumps_length in Hn by exact Hne.
  destruct ts as [|t ts]; [congruence|]. unfold dumps.
  change (py "[" ++ [10] ++ py "  " ++ dumps_items (t :: ts) ++ [10] ++ py "]")
    with (91 :: 10 :: 32 :: 32 :: dumps_items (t :: ts) ++ [10; 93]).
  destruct fuel as [|fuel]; [lia|].
  do 4 (destruct n as [|n]; [reflexivity|]). cbn [take].
  change (skip_ws (91 :: ?x)) with (91 :: x). cbn [scan_once].
  change (91 =? 34) with false. change (91 =? 123) with false.
  change (91 =? 91) with true. cbv iota.
  change (skip_ws (10 :: 32 :: 32 :: ?x)) with (skip_ws x).
  destruct (dumps_items_head (t :: ts) [10; 93]) as [x Hx]; [discriminate|].
  destruct n as [|n]; [reflexivity|].
  rewrite Hx. cbn [take]. change (skip_ws (123 :: ?y)) with (123 :: y).
  cbv iota. change (123 =? 93) with false. cbv iota.
  change (123 :: take n x) with (take (S n) (123 :: x)). rewrite <- Hx.
  apply items_cut; [discriminate | exact Hs | simpl in *; lia | lia].
Qed.

(** A file that holds only a beginning of the text of a task list is a
    file [json.loads] refuses. *)
Lemma cut_file_malformed (ts : list Task) (n : nat) :
  Forall (fun t => is_str (text t)) ts ->
  (n < length (dumps ts))%nat ->
  file_of_text (take n (dumps ts)) = Malformed.
Proof.
  intros Hs Hn. unfold file_of_text.
  destruct (loads (take n (dumps ts))) as [v|e] eqn:Hl; [exfalso|reflexivity].
  destruct ts as [|t ts].
  { do 2 (destruct n as [|n]; [discriminate|]). simpl in Hn. lia. }
  unfold loads in Hl.
  set (X := take n (dumps (t :: ts))) in *.
  assert (Hscan : exists vr, scan_once (S (length X)) (skip_ws X) = Ret vr).
  { destruct X as [|c X']; [discriminate|].
    destruct (scan_once (S (length (c :: X'))) (skip_ws (c :: X'))) as [vr|e];
      [eauto|].
    exfalso. revert Hl. clear.
    destruct c as [|p]; [discriminate|].
    repeat (destruct p as [p|p|]; try discriminate). }
  destruct Hscan as [vr Hvr].
  apply (scan_once_mono _ (S (length X) + (length (t :: ts) + 5))) in Hvr;
    [|lia].
  subst X. rewrite dumps_cut in Hvr; [discriminate|discriminate|exact Hs|lia|exact Hn].
Qed.

(* ===================================================================== *)
(** ** Loading                                                            *)
(* ===================================================================== *)

Lemma dict_has_get (k : pystr) (d : list (pystr * json)) :
  dict_has k d = true <-> is_Some (dict_get k d).
Proof.
  induction d as [|[k' v] d IH]; simpl.
  - split; [discriminate | intros [? [=]]].
  - rewrite orb_true_iff, IH. destruct (dict_get k d) as [w|].
    + split; [eauto | intros _; right; eauto].
    + case_bool_decide; simpl; split; eauto.
      intros [[=] | [? [=]]].
Qed.

Lemma dict_has_false (k : pystr) (d : list (pystr * json)) :
  dict_has k d = false <-> dict_get k d = None.
Proof.
  rewrite <- not_true_iff_false, dict_has_get, <- eq_None_not_Some. tauto.
Qed.

Section LoadFacts.
Variable repr : json -> pystr.

(** One turn of the loop appends the record's task, if it has one. *)
Lemma load_item_spec (out : list Task) (item : json) :
  load_item repr out item
  = Ret (out ++ option_list (record_task repr item)).
Proof.
  destruct item; simpl; rewrite ?app_nil_r; try reflexivity.
  destruct (dict_has (py "text") members) eqn:Hhas.
  - apply dict_has_get in Hhas as [v Hv]. unfold subscript.
    rewrite Hv. simpl. destruct (dict_get (py "done") members); reflexivity.
  - apply dict_has_false in Hhas. rewrite Hhas. simpl.
    now rewrite app_nil_r.
Qed.

Lemma load_loop_spec (items : list json) (out : list Task) :
  load_loop repr items out = Ret (out ++ omap (record_task repr) items).
Proof.
  revert out. induction items as [|item items IH]; intros out; simpl.
  - now rewrite app_nil_r.
  - rewrite load_item_spec. simpl. rewrite IH, <- app_assoc. f_equal. f_equal.
    destruct (record_task repr item); reflexivity.
Qed.

(** On a file whose path can be examined, [load_tasks] does not raise
    and returns what the specification says. *)
Lemma load_tasks_refines (f : FileState) :
  accessible f -> load_tasks repr f = Ret (load_spec repr f).
Proof.
  intros Hf. unfold load_tasks, load_body.
  destruct f as [| |e| |v]; simpl; try reflexivity; [now destruct Hf|].
  destruct v; simpl; try reflexivity.
  now rewrite load_loop_spec.
Qed.

Lemma load_tasks_document (v : json) :
  load_tasks repr (Document v) = Ret (load_spec repr (Document v)).
Proof. now apply load_tasks_refines. Qed.

(** The records written for a task list read back as that list. *)
Lemma record_task_of_task (t : Task) :
  record_task repr (task_to_json t) = Some t.
Proof. destruct t as [tx d]. reflexivity. Qed.

Lemma omap_record_tasks (ts : list Task) :
  omap (record_task repr) (task_to_json <$> ts) = ts.
Proof.
  induction ts as [|t ts IH]; [reflexivity|].
  rewrite fmap_cons.
  change (omap (record_task repr) (task_to_json t :: (task_to_json <$> ts)))
    with (match record_task repr (task_to_json t) with
          | Some y => y :: omap (record_task repr) (task_to_json <$> ts)
          | None => omap (record_task repr) (task_to_json <$> ts)
          end).
  now rewrite record_task_of_task, IH.
Qed.

End LoadFacts.

(* ===================================================================== *)
(** ** The listbox and the disk                                           *)
(* ===================================================================== *)

Lemma for_each_insert (ts : list Task) (s : State) :
  for_each ts (fun t => listbox_insert_end (_format_line t)) s
  = (set_lb_rows (lb_rows s ++ ((fun t => mkRow (_format_line t) false) <$> ts)) s,
     Ret tt).
Proof.
  revert s. induction ts as [|t ts IH]; intros s.
  - simpl. rewrite app_nil_r. now destruct s.
  - cbn [for_each]. unfold bind at 1. unfold listbox_insert_end at 1, modify.
    rewrite IH. cbn. now rewrite <- app_assoc.
Qed.

Lemma for_each_gray (ts : list Task) :
  forall (pre : list Row) (s : State),
    lb_rows s = pre ++ ((fun t => mkRow (_format_line t) false) <$> ts) ->
    for_each (imap (fun i t => (length pre + i, t)%nat) ts)
      (fun it => if done it.2 then listbox_gray it.1 else ret tt) s
    = (set_lb_rows (pre ++ rows_of ts) s, Ret tt).
Proof.
  induction ts as [|t ts IH]; intros pre s Hrows.
  - simpl in *. unfold ret. rewrite <- Hrows. now destruct s.
  - cbn [imap for_each]. unfold bind at 1. cbn [snd fst].
    set (row := mkRow (_format_line t) (done t)).
    assert (Hstep :
      (if done t then listbox_gray (length pre + 0) else ret tt) s
      = (set_lb_rows ((pre ++ [row]) ++
           ((fun t => mkRow (_format_line t) false) <$> ts)) s, Ret tt)).
    { rewrite <- app_assoc. subst row. destruct (done t) eqn:Hd.
      - unfold listbox_gray, modify. rewrite Hrows.
        rewrite fmap_cons, alter_app_r. reflexivity.
      - unfold ret. f_equal.
        transitivity (set_lb_rows (lb_rows s) s); [now destruct s|].
        f_equal. rewrite Hrows. reflexivity. }
    rewrite Hstep.
    rewrite (imap_ext _ (fun i t => (length (pre ++ [row]) + i, t)%nat)).
    2:{ intros i x _. simpl. rewrite length_app. simpl. f_equal. lia. }
    rewrite IH by reflexivity.
    unfold rows_of. rewrite fmap_cons, <- app_assoc. reflexivity.
Qed.

(** [_refresh_list] never raises and touches the display only. *)
Lemma refresh_eq (s : State) : _refresh_list s = (refreshed s, Ret tt).
Proof.
  unfold _refresh_list.
  unfold bind at 1. unfold listbox_delete_all at 1, modify at 1.
  unfold bind at 1. unfold gets at 1.
  unfold bind at 1. rewrite for_each_insert.
  unfold bind at 1. unfold gets at 1.
  unfold bind at 1. unfold modify at 1.
  unfold bind at 1. unfold gets at 1.
  change (imap pair ?l) with (imap (fun i t => (length (@nil Row) + i, t)%nat) l).
  rewrite for_each_gray by reflexivity.
  reflexivity.
Qed.

(** [save] attempts exactly one write of the current list. *)
Lemma save_tasks_eq (ts : list Task) (s : State) :
  save_tasks ts s = (written ts s, write_outcome s).
Proof.
  unfold save_tasks, write_json, written, disk_after, write_outcome,
    bind, gets, modify, raise.
  destruct s as [? ? ? ? ? ? [] [n|] ?]; reflexivity.
Qed.

Lemma save_eq (s : State) :
  save s = (written (tasks s) s, write_outcome s).
Proof. unfold save, bind, gets. apply save_tasks_eq. Qed.

Lemma written_tasks ts s : tasks (written ts s) = tasks s.
Proof. reflexivity. Qed.

Lemma written_trace ts s :
  trace (written ts s) = trace s ++ [WriteText (tasks_to_json ts)].
Proof. reflexivity. Qed.

Lemma written_writable ts s : writable (written ts s) = writable s.
Proof. reflexivity. Qed.

Lemma written_sel ts s : lb_sel (written ts s) = lb_sel s.
Proof. reflexivity. Qed.

Lemma written_file ts s : file (written ts s) = disk_after ts s.
Proof. reflexivity. Qed.

(** What an appended trace has emitted. *)
Lemma drop_trace {A} (l l' : list A) : drop (length l) (l ++ l') = l'.
Proof. now rewrite drop_app_length. Qed.

Lemma save_refresh_eq (s : State) :
  (save ;;; _refresh_list)%py s = committed s.
Proof.
  unfold bind, committed. rewrite save_eq. unfold write_outcome.
  destruct (writable s) eqn:Hw; [|reflexivity].
  now rewrite refresh_eq.
Qed.

Lemma committed_tasks s : tasks (committed s).1 = tasks s.
Proof. unfold committed. destruct s as [? ? ? ? ? ? [] ? ?]; reflexivity. Qed.

Lemma committed_outcome s : (committed s).2 = write_outcome s.
Proof. unfold committed, write_outcome. destruct (writable s); reflexivity. Qed.

Lemma committed_trace s :
  trace (committed s).1 = trace s ++ [WriteText (tasks_to_json (tasks s))].
Proof. unfold committed. destruct s as [? ? ? ? ? ? [] ? ?]; reflexivity. Qed.

Lemma committed_file s : file (committed s).1 = disk_after (tasks s) s.
Proof. unfold committed. destruct s as [? ? ? ? ? ? [] ? ?]; reflexivity. Qed.

Lemma committed_writable s : writable (committed s).1 = writable s.
Proof. unfold committed. destruct s as [? ? ? ? ? ? [] ? ?]; reflexivity. Qed.

Lemma committed_sel s :
  lb_sel (committed s).1 = if writable s then [] else lb_sel s.
Proof. unfold committed. destruct s as [? ? ? ? ? ? [] ? ?]; reflexivity. Qed.

Lemma committed_rows s :
  writable s = true -> lb_rows (committed s).1 = rows_of (tasks s).
Proof.
  unfold committed. destruct s as [? ? ? ? ? ? [] ? ?]; [reflexivity|discriminate].
Qed.

(* ===================================================================== *)
(** ** The callbacks, step by step                                        *)
(* ===================================================================== *)

Lemma selected_index_eq (s : State) :
  _selected_index s = (s, Ret (match lb_sel s with [] => None | i :: _ => Some i end)).
Proof. reflexivity. Qed.

Lemma task_at_eq (i : nat) (s : State) :
  task_at i s = (s, match tasks s !! i with Some t => Ret t | None => Raise IndexError end).
Proof.
  unfold task_at, bind, gets. destruct (tasks s !! i); reflexivity.
Qed.

(** [add_task] on an entry that is blank after trimming. *)
Lemma add_task_blank (s : State) :
  strip (task_var s) = [] -> add_task s = (emit empty_input s, Ret tt).
Proof.
  intros H. unfold add_task. unfold bind at 1. unfold gets at 1.
  now rewrite H.
Qed.

(** [add_task] on any other entry. *)
Lemma add_task_accepted (s : State) :
  strip (task_var s) <> [] ->
  add_task s = committed (set_task_var [] (set_tasks (appended s) s)).
Proof.
  intros H. unfold add_task. unfold bind at 1. unfold gets at 1.
  destruct (strip (task_var s)) as [|c r] eqn:E; [congruence|].
  unfold bind at 1. unfold modify at 1.
  unfold bind at 1. unfold modify at 1.
  rewrite save_refresh_eq. unfold appended. now rewrite E.
Qed.

(** [toggle_done] without a selected row. *)
Lemma toggle_done_none (s : State) :
  lb_sel s = [] -> toggle_done s = (emit no_selection_toggle s, Ret tt).
Proof.
  intros H. unfold toggle_done. unfold bind at 1.
  rewrite selected_index_eq, H. reflexivity.
Qed.

(** [toggle_done] with a selected row beyond the end of the list. *)
Lemma toggle_done_beyond (s : State) (i : nat) (rest : list nat) :
  lb_sel s = i :: rest -> (length (tasks s) <= i)%nat ->
  toggle_done s = (s, Raise IndexError).
Proof.
  intros H Hi. apply lookup_ge_None in Hi.
  unfold toggle_done. unfold bind at 1. rewrite selected_index_eq, H.
  unfold bind at 1. rewrite task_at_eq, Hi. reflexivity.
Qed.

(** [toggle_done] with a selected row of the list. *)
Lemma toggle_done_at (s : State) (i : nat) (rest : list nat) (t : Task) :
  lb_sel s = i :: rest -> tasks s !! i = Some t ->
  toggle_done s
  = let s1 := set_tasks (alter flip_done i (tasks s)) s in
    if writable s
    then (set_lb_sel [i] (committed s1).1, Ret tt)
    else committed s1.
Proof.
  intros H Ht. unfold toggle_done. unfold bind at 1.
  rewrite selected_index_eq, H.
  unfold bind at 1. rewrite task_at_eq, Ht.
  unfold bind at 1. rewrite task_at_eq, Ht.
  unfold bind at 1. unfold modify at 1.
  rewrite (list_alter_ext _ flip_done _ (tasks s) i);
    [|intros x Hx; rewrite Ht in Hx; now injection Hx as <- | reflexivity].
  set (s1 := set_tasks (alter flip_done i (tasks s)) s). cbv zeta.
  assert (Hw : writable s1 = writable s) by reflexivity.
  unfold bind at 1. unfold bind at 1. rewrite save_eq. unfold write_outcome.
  unfold committed. rewrite Hw.
  destruct (writable s) eqn:Hws; [|reflexivity].
  rewrite refresh_eq. unfold selection_set, modify.
  assert (Hlen : (i < length (lb_rows (refreshed (written (tasks s1) s1))))%nat).
  { cbn [lb_rows refreshed]. unfold rows_of.
    rewrite length_fmap, written_tasks. subst s1. cbn [tasks set_tasks].
    rewrite length_alter. eapply lookup_lt_Some; eauto. }
  rewrite bool_decide_eq_true_2 by exact Hlen.
  reflexivity.
Qed.

(** [delete_task] without a selected row. *)
Lemma delete_task_none (answer : bool) (s : State) :
  lb_sel s = [] -> delete_task answer s = (emit no_selection_delete s, Ret tt).
Proof.
  intros H. unfold delete_task. unfold bind at 1.
  rewrite selected_index_eq, H. reflexivity.
Qed.

(** [delete_task] with a selected row beyond the end of the list. *)
Lemma delete_task_beyond (answer : bool) (s : State) (i : nat) (rest : list nat) :
  lb_sel s = i :: rest -> (length (tasks s) <= i)%nat ->
  delete_task answer s = (s, Raise IndexError).
Proof.
  intros H Hi. apply lookup_ge_None in Hi.
  unfold delete_task. unfold bind at 1. rewrite selected_index_eq, H.
  unfold bind at 1. rewrite task_at_eq, Hi. reflexivity.
Qed.

(** [delete_task] when the user declines. *)
Lemma delete_task_declined (s : State) (i : nat) (rest : list nat) (t : Task) :
  lb_sel s = i :: rest -> tasks s !! i = Some t ->
  delete_task false s = (emit (delete_question t false) s, Ret tt).
Proof.
  intros H Ht. unfold delete_task. unfold bind at 1.
  rewrite selected_index_eq, H.
  unfold bind at 1. rewrite task_at_eq, Ht. reflexivity.
Qed.

(** [delete_task] when the user confirms. *)
Lemma delete_task_confirmed (s : State) (i : nat) (rest : list nat) (t : Task) :
  lb_sel s = i :: rest -> tasks s !! i = Some t ->
  delete_task true s
  = committed (set_tasks (delete i (tasks s)) (emit (delete_question t true) s)).
Proof.
  intros H Ht. unfold delete_task. unfold bind at 1.
  rewrite selected_index_eq, H.
  unfold bind at 1. rewrite task_at_eq, Ht.
  unfold bind at 1. unfold askyesno, bind at 1, modify at 1, ret at 1.
  cbn [negb]. cbv iota.
  unfold bind at 1. unfold gets at 1.
  unfold bind at 1.
  assert (Hi : (i < length (tasks s))%nat) by (eapply lookup_lt_Some; eauto).
  cbn [tasks emit]. rewrite bool_decide_eq_true_2 by exact Hi.
  unfold modify at 1. rewrite save_refresh_eq. reflexivity.
Qed.

(** [clear_completed]. *)
Lemma clear_completed_eq (s : State) :
  clear_completed s
  = let s1 := set_tasks (filter (fun t => done t = false) (tasks s)) s in
    if writable s
    then (emit (removed_notice (Z.of_nat (length (tasks s))
                                - Z.of_nat (length (tasks s1))))
            (committed s1).1, Ret tt)
    else committed s1.
Proof.
  unfold clear_completed. unfold bind at 1. unfold gets at 1.
  unfold bind at 1. unfold modify at 1.
  unfold bind at 1. unfold gets at 1.
  set (s1 := set_tasks (filter (fun t => done t = false) (tasks s)) s). cbv zeta.
  assert (Hw : writable s1 = writable s) by reflexivity.
  unfold bind at 1. unfold bind at 1. rewrite save_eq. unfold write_outcome.
  unfold committed. rewrite Hw.
  destruct (writable s) eqn:Hws; [|reflexivity].
  rewrite refresh_eq. reflexivity.
Qed.

(* ===================================================================== *)
(** ** The task list after each callback                                  *)
(* ===================================================================== *)

Lemma alter_beyond {A} (f : A -> A) (l : list A) (i : nat) :
  (length l <= i)%nat -> alter f i l = l.
Proof.
  revert i. induction l as [|x l IH]; intros [|i] H; simpl in *;
    try reflexivity; try lia.
  f_equal. apply IH. lia.
Qed.

Lemma delete_beyond {A} (l : list A) (i : nat) :
  (length l <= i)%nat -> delete i l = l.
Proof.
  revert i. induction l as [|x l IH]; intros [|i] H; simpl in *;
    try reflexivity; try lia.
  f_equal. apply IH. lia.
Qed.

Lemma add_task_tasks (s : State) :
  tasks (after add_task s)
  = match strip (task_var s) with [] => tasks s | _ => appended s end.
Proof.
  unfold after. destruct (strip (task_var s)) as [|c r] eqn:E.
  - now rewrite add_task_blank.
  - rewrite add_task_accepted by congruence. now rewrite committed_tasks.
Qed.

Lemma toggle_done_tasks (s : State) :
  tasks (after toggle_done s)
  = match lb_sel s with
    | [] => tasks s
    | i :: _ => alter flip_done i (tasks s)
    end.
Proof.
  unfold after. destruct (lb_sel s) as [|i rest] eqn:Hsel.
  - now rewrite toggle_done_none.
  - destruct (tasks s !! i) as [t|] eqn:Ht.
    + rewrite (toggle_done_at s i rest t Hsel Ht). cbv zeta.
      destruct (writable s); [cbn [fst tasks set_lb_sel]|];
        now rewrite committed_tasks.
    + apply lookup_ge_None in Ht.
      rewrite (toggle_done_beyond s i rest Hsel Ht). simpl.
      symmetry. apply alter_beyond. exact Ht.
Qed.

Lemma delete_task_tasks (answer : bool) (s : State) :
  tasks (after (delete_task answer) s)
  = match lb_sel s with
    | [] => tasks s
    | i :: _ => if answer then delete i (tasks s) else tasks s
    end.
Proof.
  unfold after. destruct (lb_sel s) as [|i rest] eqn:Hsel.
  - now rewrite delete_task_none.
  - destruct (tasks s !! i) as [t|] eqn:Ht.
    + destruct answer.
      * rewrite (delete_task_confirmed s i rest t Hsel Ht).
        now rewrite committed_tasks.
      * now rewrite (delete_task_declined s i rest t Hsel Ht).
    + apply lookup_ge_None in Ht.
      rewrite (delete_task_beyond answer s i rest Hsel Ht). simpl.
      destruct answer; [|reflexivity].
      symmetry. apply delete_beyond. exact Ht.
Qed.

Lemma clear_completed_tasks (s : State) :
  tasks (after clear_completed s) = filter (fun t => done t = false) (tasks s).
Proof.
  unfold after. rewrite clear_completed_eq. cbv zeta.
  destruct (writable s); [cbn [fst tasks emit]|]; now rewrite committed_tasks.
Qed.

Lemma task_ok_flip (t : Task) : task_ok t -> task_ok (flip_done t).
Proof. now unfold task_ok. Qed.

Lemma tasks_inv_filter (P : Task -> Prop) `{!forall t, Decision (P t)} ts :
  tasks_inv ts -> tasks_inv (filter P ts).
Proof.
  unfold tasks_inv. rewrite !Forall_forall. intros Hall t Ht.
  apply list_elem_of_filter in Ht as [_ Ht]. now apply Hall.
Qed.

Lemma tasks_inv_load (repr : json -> pystr) (f : FileState) :
  tasks_inv (load_spec repr f) <-> file_texts_ok repr f.
Proof.
  unfold file_texts_ok, load_spec, tasks_inv.
  destruct f as [| |e| |v]; try (split; constructor).
  destruct v; try (split; constructor).
  induction items as [|item items IH]; [split; constructor|].
  cbn [omap list_omap].
  rewrite Forall_cons. unfold record_ok at 1.
  destruct (record_task repr item) as [t|]; simpl.
  - rewrite Forall_cons, IH. reflexivity.
  - rewrite IH. tauto.
Qed.

(* ===================================================================== *)
(** ** C1: the invariant of the task list                                 *)
(* ===================================================================== *)

(** C1, counterexample.  The claim says the list produced at startup by
    load always has texts that are non-empty after trimming.  A file
    holding the single record [{"text": ""}] loads as one task with an
    empty text: [load_tasks] converts the field with [str] and neither
    trims nor rejects it. *)
Lemma load_keeps_blank_text :
  load_tasks no_repr blank_text_file = Ret [mkTask [] false]
  /\ (exists s, startup no_repr blank_text_file true None = Ret s
                /\ tasks s = [mkTask [] false])
  /\ ~ tasks_inv [mkTask [] false].
Proof.
  split; [reflexivity|]. split.
  - eexists. split; reflexivity.
  - intros H. apply Forall_inv in H. apply H. reflexivity.
Qed.

(** C1, amended.  Each of the four callbacks [add_task], [toggle_done],
    [delete_task] and [clear_completed] preserves the invariant that every
    task has a text that is non-empty after trimming, however the callback
    ends; and the list [load_tasks] returns (it returns one whenever the
    path of the file can be examined) satisfies the invariant when every
    record of the file that has a [text] field converts to a text that is
    non-empty after trimming. *)
Theorem invariant_preserved
    (repr : json -> pystr) (f : FileState) (s : State) (answer : bool) :
  file_texts_ok repr f ->
  tasks_inv (tasks s) ->
  (accessible f -> exists ts, load_tasks repr f = Ret ts /\ tasks_inv ts)
  /\ (forall ts, load_tasks repr f = Ret ts -> tasks_inv ts)
  /\ tasks_inv (tasks (after add_task s))
  /\ tasks_inv (tasks (after toggle_done s))
  /\ tasks_inv (tasks (after (delete_task answer) s))
  /\ tasks_inv (tasks (after clear_completed s)).
Proof.
  intros Hfile Hinv. split_and!.
  - intros Hf. exists (load_spec repr f).
    split; [now apply load_tasks_refines|]. now apply tasks_inv_load.
  - intros ts Hts. assert (Hf : accessible f) by (intros ->; discriminate).
    rewrite load_tasks_refines in Hts by exact Hf. injection Hts as <-.
    now apply tasks_inv_load.
  - rewrite add_task_tasks.
    destruct (strip (task_var s)) as [|c r] eqn:E; [exact Hinv|].
    unfold appended. apply Forall_app. split; [exact Hinv|].
    constructor; [|constructor]. unfold task_ok. cbn [text].
    rewrite strip_idempotent, E. discriminate.
  - rewrite toggle_done_tasks. destruct (lb_sel s); [exact Hinv|].
    apply Forall_alter; [exact Hinv|]. intros x _. apply task_ok_flip.
  - rewrite delete_task_tasks. destruct (lb_sel s); [exact Hinv|].
    destruct answer; [|exact Hinv]. now apply Forall_delete.
  - rewrite clear_completed_tasks. now apply tasks_inv_filter.
Qed.

Lemma invariant_preserved_witness :
  file_texts_ok no_repr spec_example_file
  /\ tasks_inv (tasks (demo_state (py " E ") [1%nat] true))
  /\ tasks_inv (tasks (after add_task (demo_state (py " E ") [1%nat] true)))
  /\ tasks_inv (tasks (after clear_completed (demo_state (py " E ") [1%nat] true)))
  /\ (exists ts, load_tasks no_repr spec_example_file = Ret ts /\ tasks_inv ts).
Proof.
  assert (Hf : file_texts_ok no_repr spec_example_file).
  { unfold file_texts_ok, spec_example_file. all_nonblank. }
  assert (Hs : tasks_inv (tasks (demo_state (py " E ") [1%nat] true))).
  { unfold tasks_inv, demo_state, demo_tasks. cbn [tasks]. all_nonblank. }
  split; [exact Hf|]. split; [exact Hs|].
  pose proof (invariant_preserved no_repr spec_example_file
                (demo_state (py " E ") [1%nat] true) true Hf Hs)
    as (Hload & _ & Hadd & _ & _ & Hclear).
  split; [exact Hadd|]. split; [exact Hclear|].
  apply Hload. discriminate.
Defined.

(* ===================================================================== *)
(** ** C2: adding a task                                                  *)
(* ===================================================================== *)

(** C2.  [add_task] on the entry text [raw]: when [raw] is blank after
    trimming, the only effect is the "Empty task" notice (the state is
    otherwise the one before: same list, same file, no write); otherwise
    exactly one task [{text: raw.strip(), done: False}] is appended (the
    length grows by one, the earlier tasks stay where they were), and then
    the list is written: one write of the new list is attempted, and the
    callback ends as that write does.  The notice is shown if and only if
    [raw] is blank after trimming. *)
Theorem add_task_spec (s : State) :
  (strip (task_var s) = [] ->
     after add_task s = emit empty_input s
     /\ outcome add_task s = Ret tt
     /\ tasks (after add_task s) = tasks s
     /\ file (after add_task s) = file s
     /\ emitted add_task s = [empty_input])
  /\ (strip (task_var s) <> [] ->
     tasks (after add_task s) = tasks s ++ [mkTask (strip (task_var s)) false]
     /\ length (tasks (after add_task s)) = S (length (tasks s))
     /\ (forall i t, tasks s !! i = Some t -> tasks (after add_task s) !! i = Some t)
     /\ last (tasks (after add_task s)) = Some (mkTask (strip (task_var s)) false)
     /\ emitted add_task s = [WriteText (tasks_to_json (tasks (after add_task s)))]
     /\ outcome add_task s = write_outcome s
     /\ file (after add_task s) = disk_after (tasks (after add_task s)) s)
  /\ (empty_input ∈ emitted add_task s <-> strip (task_var s) = []).
Proof.
  assert (Hblank : strip (task_var s) = [] ->
                   after add_task s = emit empty_input s
                   /\ outcome add_task s = Ret tt
                   /\ emitted add_task s = [empty_input]).
  { intros H. unfold emitted, after, outcome. rewrite (add_task_blank s H).
    repeat split. cbn [fst trace emit]. apply drop_trace. }
  assert (Hok : strip (task_var s) <> [] ->
                tasks (after add_task s) = appended s
                /\ emitted add_task s = [WriteText (tasks_to_json (appended s))]
                /\ outcome add_task s = write_outcome s
                /\ file (after add_task s) = disk_after (appended s) s).
  { intros H. unfold emitted, after, outcome. rewrite (add_task_accepted s H).
    rewrite committed_tasks, committed_trace, committed_outcome, committed_file.
    repeat split. apply drop_trace. }
  split; [|split].
  - intros H. destruct (Hblank H) as (Hs & Ho & He).
    repeat split; try assumption; now rewrite Hs.
  - intros H. destruct (Hok H) as (Ht & He & Ho & Hf).
    rewrite Ht. unfold appended. repeat split; try assumption.
    + rewrite length_app. simpl. lia.
    + intros i t Hi. rewrite lookup_app_l; [exact Hi|].
      eapply lookup_lt_Some; eauto.
    + apply last_snoc.
  - split.
    + intros Hin. destruct (strip (task_var s)) as [|c r] eqn:E; [reflexivity|].
      destruct Hok as (_ & He & _); [discriminate|].
      rewrite He in Hin. apply list_elem_of_singleton in Hin. discriminate.
    + intros H. destruct (Hblank H) as (_ & _ & He). rewrite He.
      apply list_elem_of_singleton. reflexivity.
Qed.

(* ===================================================================== *)
(** ** C3: saving and loading                                             *)
(* ===================================================================== *)




(** The file a successful write of a task list leaves. *)
Lemma file_of_dumps (ts : list Task) :
  Forall (fun t => is_str (text t)) ts ->
  file_of_text (dumps ts) = Document (tasks_to_json (reread <$> ts)).
Proof. intros Hs. unfold file_of_text. now rewrite loads_dumps. Qed.

Lemma load_written (repr : json -> pystr) (ts : list Task) :
  Forall (fun t => is_str (text t)) ts ->
  load_tasks repr (file_of_text (dumps ts)) = Ret (reread <$> ts).
Proof.
  intros Hs. rewrite file_of_dumps by exact Hs.
  rewrite load_tasks_document. unfold load_spec, tasks_to_json.
  now rewrite omap_record_tasks.
Qed.





(* ===================================================================== *)
(** ** C4: toggling                                                       *)
(* ===================================================================== *)

Lemma flip_done_involutive (t : Task) : flip_done (flip_done t) = t.
Proof. destruct t as [tx d]. unfold flip_done. simpl. now rewrite negb_involutive. Qed.

Lemma toggle_done_keeps_selection (s : State) (i : nat) (rest : list nat) :
  lb_sel s = i :: rest -> (i < length (tasks s))%nat ->
  exists rest', lb_sel (after toggle_done s) = i :: rest'.
Proof.
  intros Hsel Hi. apply lookup_lt_is_Some_2 in Hi as [t Ht].
  unfold after. rewrite (toggle_done_at s i rest t Hsel Ht). cbv zeta.
  destruct (writable s) eqn:Hw.
  - exists []. reflexivity.
  - exists rest. rewrite committed_sel. cbn [writable set_tasks].
    rewrite Hw. exact Hsel.
Qed.

(** C4.  With row [i] of the list selected, [toggle_done] flips the [done]
    flag of the task at position [i] and nothing else: the list keeps its
    length, the task at [i] keeps its text, every other position holds the
    task it held; the row stays selected, and a second [toggle_done] gives
    back the list the first one started from. *)
Theorem toggle_done_spec (s : State) (i : nat) (rest : list nat) :
  lb_sel s = i :: rest ->
  (i < length (tasks s))%nat ->
  length (tasks (after toggle_done s)) = length (tasks s)
  /\ (forall t, tasks s !! i = Some t ->
        tasks (after toggle_done s) !! i = Some (mkTask (text t) (negb (done t))))
  /\ (forall j, j <> i -> tasks (after toggle_done s) !! j = tasks s !! j)
  /\ (exists rest', lb_sel (after toggle_done s) = i :: rest')
  /\ tasks (after toggle_done (after toggle_done s)) = tasks s.
Proof.
  intros Hsel Hi.
  destruct (toggle_done_keeps_selection s i rest Hsel Hi) as [rest' Hsel'].
  assert (H1 : tasks (after toggle_done s) = alter flip_done i (tasks s)).
  { rewrite toggle_done_tasks, Hsel. reflexivity. }
  rewrite H1. repeat split.
  - apply length_alter.
  - intros t Ht. rewrite list_lookup_alter_eq, Ht. reflexivity.
  - intros j Hj. apply list_lookup_alter_ne. congruence.
  - eauto.
  - rewrite toggle_done_tasks, Hsel', H1, list_alter_alter_eq.
    apply list_alter_id. intros x. apply flip_done_involutive.
Qed.

Lemma toggle_done_spec_witness :
  lb_sel (demo_state [] [1%nat] true) = [1%nat]
  /\ (1 < length (tasks (demo_state [] [1%nat] true)))%nat
  /\ tasks (after toggle_done (after toggle_done (demo_state [] [1%nat] true)))
     = demo_tasks.
Proof.
  split; [reflexivity|]. split; [simpl; lia|].
  refine (proj2 (proj2 (proj2 (proj2
    (toggle_done_spec (demo_state [] [1%nat] true) 1 [] eq_refl _))))).
  simpl. lia.
Defined.

(* ===================================================================== *)
(** ** C5: no selection, and a selection beyond the list                  *)
(* ===================================================================== *)

(** C5, counterexample.  The claim says an index out of bounds is rejected
    with the "No selection" notice.  Start the program on a file with the
    one task [A] and a disk that cannot be written, select the row and
    confirm its deletion: the task is removed, the write raises, and the
    listbox is not refreshed, so row 0 is still selected while the list is
    empty.  [toggle_done] and [delete_task] then raise [IndexError] and
    show no notice. *)
Lemma out_of_range_raises :
  startup no_repr one_task_file false None = Ret one_task_state
  /\ lb_sel stale_state = [0%nat]
  /\ tasks stale_state = []
  /\ toggle_done stale_state = (stale_state, Raise IndexError)
  /\ delete_task true stale_state = (stale_state, Raise IndexError)
  /\ emitted toggle_done stale_state = []
  /\ emitted (delete_task true) stale_state = [].
Proof. repeat split; reflexivity. Qed.

(** C5, amended.  When no row is selected, [toggle_done] and [delete_task]
    show the "No selection" notice and do nothing else: the list, the file
    and the display are as before and no write is attempted.  When the
    selected row lies beyond the end of the list, neither changes anything
    nor attempts a write either, but they raise [IndexError] instead of
    showing the notice. *)
Theorem no_selection_spec (s : State) (answer : bool) :
  (lb_sel s = [] ->
     toggle_done s = (emit no_selection_toggle s, Ret tt)
     /\ delete_task answer s = (emit no_selection_delete s, Ret tt)
     /\ emitted toggle_done s = [no_selection_toggle]
     /\ emitted (delete_task answer) s = [no_selection_delete])
  /\ (forall i rest, lb_sel s = i :: rest -> (length (tasks s) <= i)%nat ->
     toggle_done s = (s, Raise IndexError)
     /\ delete_task answer s = (s, Raise IndexError)
     /\ emitted toggle_done s = []
     /\ emitted (delete_task answer) s = []).
Proof.
  split.
  - intros H. unfold emitted, after.
    rewrite (toggle_done_none s H), (delete_task_none answer s H).
    repeat split; apply drop_trace.
  - intros i rest H Hi. unfold emitted, after.
    rewrite (toggle_done_beyond s i rest H Hi),
            (delete_task_beyond answer s i rest H Hi).
    repeat split; cbn [fst]; apply drop_all.
Qed.

(* ===================================================================== *)
(** ** C6: deleting                                                       *)
(* ===================================================================== *)

(** C6.  With row [i] of the list selected and the deletion confirmed,
    [delete_task] removes exactly the task at position [i]: the list is
    one shorter, the tasks before [i] stay where they were, and every
    task after [i] moves one position down unchanged.  It then saves: one
    write of the new list is attempted, and the callback ends as that
    write does. *)
Theorem delete_task_spec (s : State) (i : nat) (rest : list nat) (t : Task) :
  lb_sel s = i :: rest ->
  tasks s !! i = Some t ->
  tasks s = take i (tasks s) ++ t :: drop (S i) (tasks s)
  /\ tasks (after (delete_task true) s) = take i (tasks s) ++ drop (S i) (tasks s)
  /\ S (length (tasks (after (delete_task true) s))) = length (tasks s)
  /\ (forall j, (j < i)%nat ->
        tasks (after (delete_task true) s) !! j = tasks s !! j)
  /\ (forall j, (i <= j)%nat ->
        tasks (after (delete_task true) s) !! j = tasks s !! S j)
  /\ emitted (delete_task true) s
     = [delete_question t true;
        WriteText (tasks_to_json (tasks (after (delete_task true) s)))]
  /\ outcome (delete_task true) s = write_outcome s
  /\ file (after (delete_task true) s)
     = disk_after (tasks (after (delete_task true) s)) s.
Proof.
  intros Hsel Ht.
  assert (Hi : (i < length (tasks s))%nat) by (eapply lookup_lt_Some; eauto).
  assert (H1 : tasks (after (delete_task true) s) = delete i (tasks s)).
  { rewrite delete_task_tasks, Hsel. reflexivity. }
  rewrite H1. repeat split.
  - symmetry. now apply take_drop_middle.
  - apply delete_take_drop.
  - rewrite length_delete by eauto. lia.
  - intros j Hj. now apply list_lookup_delete_lt.
  - intros j Hj. now apply list_lookup_delete_ge.
  - unfold emitted, after. rewrite (delete_task_confirmed s i rest t Hsel Ht).
    rewrite committed_trace. cbn [trace tasks set_tasks emit].
    rewrite <- app_assoc. apply drop_trace.
  - unfold outcome. rewrite (delete_task_confirmed s i rest t Hsel Ht).
    now rewrite committed_outcome.
  - unfold after. rewrite (delete_task_confirmed s i rest t Hsel Ht).
    now rewrite committed_file.
Qed.

Lemma delete_task_spec_witness :
  lb_sel (demo_state [] [1%nat] true) = [1%nat]
  /\ tasks (demo_state [] [1%nat] true) !! 1%nat = Some (mkTask (py "B") true)
  /\ tasks (after (delete_task true) (demo_state [] [1%nat] true))
     = [mkTask (py "A") false; mkTask (py "C") true; mkTask (py "D") false].
Proof.
  split; [reflexivity|]. split; [reflexivity|].
  exact (proj1 (proj2
    (delete_task_spec (demo_state [] [1%nat] true) 1 [] (mkTask (py "B") true)
       eq_refl eq_refl))).
Defined.

(* ===================================================================== *)
(** ** C7: clearing the completed tasks                                   *)
(* ===================================================================== *)

Lemma done_split (ts : list Task) :
  (length (filter (fun t => done t = true) ts)
   + length (filter (fun t => done t = false) ts) = length ts)%nat.
Proof.
  induction ts as [|[tx d] ts IH]; [reflexivity|].
  rewrite !filter_cons. cbn [done].
  destruct d; repeat case_decide; try congruence; simpl; lia.
Qed.

Lemma removed_count (ts : list Task) :
  (Z.of_nat (length ts)
   - Z.of_nat (length (filter (fun t => done t = false) ts)))%Z
  = count_done ts.
Proof. unfold count_done. pose proof (done_split ts). lia. Qed.

Lemma clear_completed_emitted (s : State) :
  emitted clear_completed s
  = WriteText (tasks_to_json (filter (fun t => done t = false) (tasks s)))
    :: (if writable s then [removed_notice (count_done (tasks s))] else []).
Proof.
  unfold emitted, after. rewrite clear_completed_eq. cbv zeta.
  destruct (writable s) eqn:Hw.
  - cbn [fst trace emit]. rewrite committed_trace. cbn [trace tasks set_tasks].
    rewrite removed_count, <- app_assoc. apply drop_trace.
  - rewrite committed_trace. apply drop_trace.
Qed.

(** C7.  [clear_completed] keeps exactly the tasks whose [done] flag is
    false, in their order; the number removed is the number of tasks that
    were done; one write of the remaining list is attempted in every case,
    also when nothing was removed; and when that write succeeds the
    callback reports the number removed, otherwise it ends with the
    write's exception. *)
Theorem clear_completed_spec (s : State) :
  tasks (after clear_completed s) = filter (fun t => done t = false) (tasks s)
  /\ (forall t, t ∈ tasks (after clear_completed s)
                <-> t ∈ tasks s /\ done t = false)
  /\ tasks (after clear_completed s) `sublist_of` tasks s
  /\ (Z.of_nat (length (tasks s))
      - Z.of_nat (length (tasks (after clear_completed s))))%Z
     = count_done (tasks s)
  /\ emitted clear_completed s
     = WriteText (tasks_to_json (tasks (after clear_completed s)))
       :: (if writable s then [removed_notice (count_done (tasks s))] else [])
  /\ outcome clear_completed s = write_outcome s
  /\ file (after clear_completed s)
     = disk_after (tasks (after clear_completed s)) s.
Proof.
  rewrite clear_completed_tasks. split_and!.
  - reflexivity.
  - intros t. rewrite list_elem_of_filter. tauto.
  - apply sublist_filter.
  - apply removed_count.
  - apply clear_completed_emitted.
  - unfold outcome. rewrite clear_completed_eq. cbv zeta.
    unfold write_outcome. destruct (writable s) eqn:Hw; [reflexivity|].
    rewrite committed_outcome. unfold write_outcome. cbn [writable set_tasks].
    now rewrite Hw.
  - unfold after. rewrite clear_completed_eq. cbv zeta.
    destruct (writable s) eqn:Hw; [cbn [fst file emit]|];
      rewrite committed_file; reflexivity.
Qed.

(* ===================================================================== *)
(** ** C8: loading never fails                                            *)
(* ===================================================================== *)



(** The file of the specification's example loads as [x] and [y]. *)
Example load_spec_example :
  load_tasks no_repr spec_example_file
  = Ret [mkTask (py "x") false; mkTask (py "y") true].
Proof. reflexivity. Qed.



(* ===================================================================== *)
(** ** C9: a failing save                                                 *)
(* ===================================================================== *)

(** C9.  On a disk that cannot be written, each of the four callbacks
    that changes the list ends with the [OSError] of the write, and the
    list in memory is the changed one: the task is appended, the flag is
    flipped, the task is deleted, the completed tasks are gone. *)
Theorem save_failure_spec (s : State) :
  writable s = false ->
  (strip (task_var s) <> [] ->
     outcome add_task s = Raise OSError
     /\ tasks (after add_task s) = tasks s ++ [mkTask (strip (task_var s)) false])
  /\ (forall i rest t, lb_sel s = i :: rest -> tasks s !! i = Some t ->
     outcome toggle_done s = Raise OSError
     /\ tasks (after toggle_done s) = alter flip_done i (tasks s)
     /\ tasks (after toggle_done s) !! i = Some (flip_done t)
     /\ outcome (delete_task true) s = Raise OSError
     /\ tasks (after (delete_task true) s) = delete i (tasks s)
     /\ S (length (tasks (after (delete_task true) s))) = length (tasks s))
  /\ outcome clear_completed s = Raise OSError
  /\ tasks (after clear_completed s) = filter (fun t => done t = false) (tasks s).
Proof.
  intros Hw. split_and!.
  - intros H. split.
    + unfold outcome. rewrite (add_task_accepted s H), committed_outcome.
      unfold write_outcome. cbn [writable set_task_var set_tasks]. now rewrite Hw.
    + rewrite add_task_tasks. unfold appended.
      destruct (strip (task_var s)); [congruence|reflexivity].
  - intros i rest t Hsel Ht. split_and!.
    + unfold outcome. rewrite (toggle_done_at s i rest t Hsel Ht). cbv zeta.
      rewrite Hw, committed_outcome. unfold write_outcome.
      cbn [writable set_tasks]. now rewrite Hw.
    + rewrite toggle_done_tasks, Hsel. reflexivity.
    + rewrite toggle_done_tasks, Hsel, list_lookup_alter_eq, Ht. reflexivity.
    + unfold outcome. rewrite (delete_task_confirmed s i rest t Hsel Ht).
      rewrite committed_outcome. unfold write_outcome.
      cbn [writable set_tasks emit]. now rewrite Hw.
    + rewrite delete_task_tasks, Hsel. reflexivity.
    + rewrite delete_task_tasks, Hsel, length_delete by eauto.
      apply lookup_lt_Some in Ht. lia.
  - unfold outcome. rewrite clear_completed_eq. cbv zeta.
    rewrite Hw, committed_outcome. unfold write_outcome.
    cbn [writable set_tasks]. now rewrite Hw.
  - apply clear_completed_tasks.
Qed.

Lemma save_failure_spec_witness :
  writable (demo_state (py " E ") [1%nat] false) = false
  /\ outcome clear_completed (demo_state (py " E ") [1%nat] false) = Raise OSError
  /\ tasks (after clear_completed (demo_state (py " E ") [1%nat] false))
     = [mkTask (py "A") false; mkTask (py "D") false]
  /\ outcome add_task (demo_state (py " E ") [1%nat] false) = Raise OSError
  /\ tasks (after add_task (demo_state (py " E ") [1%nat] false))
     = demo_tasks ++ [mkTask (py "E") false]
  /\ outcome toggle_done (demo_state (py " E ") [1%nat] false) = Raise OSError
  /\ tasks (after toggle_done (demo_state (py " E ") [1%nat] false)) !! 1%nat
     = Some (mkTask (py "B") false)
  /\ outcome (delete_task true) (demo_state (py " E ") [1%nat] false)
     = Raise OSError.
Proof.
  pose proof (save_failure_spec (demo_state (py " E ") [1%nat] false) eq_refl)
    as (Hadd & Hsel & Hco & Hct).
  destruct Hadd as (Hao & Hat); [vm_compute; discriminate|].
  destruct (Hsel 1%nat [] (mkTask (py "B") true) eq_refl eq_refl)
    as (Hto & _ & Htt & Hdo & _ & _).
  split; [reflexivity|]. split; [exact Hco|]. split; [exact Hct|].
  split; [exact Hao|]. split; [exact Hat|]. split; [exact Hto|].
  split; [exact Htt | exact Hdo].
Defined.

(* ===================================================================== *)
(** ** C10: clearing twice                                                *)
(* ===================================================================== *)

Lemma filter_not_done_fixed (ts : list Task) :
  Forall (fun t => done t = false) ts ->
  filter (fun t => done t = false) ts = ts.
Proof.
  induction 1 as [|t ts Ht _ IH]; [reflexivity|].
  rewrite filter_cons, decide_True by exact Ht. now rewrite IH.
Qed.

Lemma count_done_none (ts : list Task) :
  Forall (fun t => done t = false) ts -> count_done ts = 0%Z.
Proof.
  intros H. rewrite <- removed_count, filter_not_done_fixed by exact H. lia.
Qed.

(** C10.  After [clear_completed] no task of the list is done; a second
    [clear_completed] leaves the list as it is, removes nothing, and, when
    its write succeeds, reports that 0 tasks were removed. *)
Theorem clear_completed_idempotent (s : State) :
  Forall (fun t => done t = false) (tasks (after clear_completed s))
  /\ tasks (after clear_completed (after clear_completed s))
     = tasks (after clear_completed s)
  /\ (Z.of_nat (length (tasks (after clear_completed s)))
      - Z.of_nat (length (tasks (after clear_completed (after clear_completed s)))))%Z
     = 0%Z
  /\ emitted clear_completed (after clear_completed s)
     = WriteText (tasks_to_json (tasks (after clear_completed s)))
       :: (if writable (after clear_completed s)
           then [removed_notice 0] else []).
Proof.
  assert (Hnone : Forall (fun t => done t = false) (tasks (after clear_completed s))).
  { rewrite clear_completed_tasks, Forall_forall. intros t Ht.
    apply list_elem_of_filter in Ht. tauto. }
  assert (Hfix : tasks (after clear_completed (after clear_completed s))
                 = tasks (after clear_completed s)).
  { rewrite (clear_completed_tasks (after clear_completed s)).
    now apply filter_not_done_fixed. }
  split_and!.
  - exact Hnone.
  - exact Hfix.
  - rewrite Hfix. lia.
  - rewrite clear_completed_emitted.
    rewrite (filter_not_done_fixed _ Hnone), (count_done_none _ Hnone).
    reflexivity.
Qed.

(* ===================================================================== *)
(** ** The display                                                        *)
(* ===================================================================== *)

Lemma rows_of_lookup (ts : list Task) (i : nat) :
  rows_of ts !! i = (fun t => mkRow (_format_line t) (done t)) <$> ts !! i.
Proof. unfold rows_of. apply list_lookup_fmap. Qed.

Lemma rows_of_length (ts : list Task) : length (rows_of ts) = length ts.
Proof. unfold rows_of. apply length_fmap. Qed.

(** X1.  [_refresh_list] never raises and rebuilds the display from the
    task list: the listbox gets one row per task, in order, row [i]
    showing the formatted line of task [i] and gray exactly when that task
    is done; no row is selected afterwards; the status line shows the
    counts of the list.  The task list, the entry, the file and the trace
    are untouched, and refreshing twice is refreshing once. *)
Theorem refresh_list_spec (s : State) :
  outcome _refresh_list s = Ret tt
  /\ tasks (after _refresh_list s) = tasks s
  /\ task_var (after _refresh_list s) = task_var s
  /\ file (after _refresh_list s) = file s
  /\ trace (after _refresh_list s) = trace s
  /\ length (lb_rows (after _refresh_list s)) = length (tasks s)
  /\ (forall i t, tasks s !! i = Some t ->
        lb_rows (after _refresh_list s) !! i
        = Some (mkRow (_format_line t) (done t)))
  /\ lb_sel (after _refresh_list s) = []
  /\ status (after _refresh_list s) = status_of (tasks s)
  /\ after _refresh_list (after _refresh_list s) = after _refresh_list s.
Proof.
  unfold outcome, after. rewrite !refresh_eq. cbn [fst snd].
  split_and!; try reflexivity.
  - cbn [lb_rows refreshed]. apply rows_of_length.
  - intros i t Ht. cbn [lb_rows refreshed]. now rewrite rows_of_lookup, Ht.
Qed.

Lemma format_line_inj (t1 t2 : Task) :
  _format_line t1 = _format_line t2 -> t1 = t2.
Proof.
  destruct t1 as [x1 d1], t2 as [x2 d2]. unfold _format_line. cbn [text done].
  destruct d1, d2; simpl; intros H; injection H as H; try discriminate;
    now subst.
Qed.

(** X2.  The formatted lines tell the tasks apart: two task lists that
    are shown as the same rows are the same list. *)
Theorem rows_determine_tasks (ts1 ts2 : list Task) :
  rows_of ts1 = rows_of ts2 -> ts1 = ts2.
Proof.
  revert ts2. induction ts1 as [|t1 ts1 IH]; intros [|t2 ts2] H;
    try discriminate; [reflexivity|].
  unfold rows_of in H. rewrite !fmap_cons in H. injection H as Hl _ Hr.
  f_equal; [now apply format_line_inj | now apply IH].
Qed.

Lemma rows_determine_tasks_witness :
  rows_of demo_tasks = rows_of (tasks (demo_state [] [] true))
  /\ demo_tasks = tasks (demo_state [] [] true).
Proof.
  split; [reflexivity|].
  exact (rows_determine_tasks demo_tasks (tasks (demo_state [] [] true)) eq_refl).
Defined.

(* ===================================================================== *)
(** ** Starting the program                                               *)
(* ===================================================================== *)

Lemma startup_eq (repr : json -> pystr) (f : FileState) (w : bool)
    (how : option nat) :
  accessible f ->
  startup repr f w how
  = Ret (refreshed (mkState (load_spec repr f) [] [] [] [] f w how [])).
Proof.
  intros Hf. unfold startup. rewrite load_tasks_refines by exact Hf.
  cbn [res_bind]. unfold after. now rewrite refresh_eq.
Qed.


(* ===================================================================== *)
(** ** The entry after [add_task], and a declined deletion                *)
(* ===================================================================== *)

(** X4.  [add_task] clears the entry exactly when it accepts the text:
    a text that is blank after trimming stays in the entry as typed, an
    accepted one is cleared before the save, so the entry is empty also
    when the save raises. *)
Theorem add_task_entry (s : State) :
  (strip (task_var s) = [] -> task_var (after add_task s) = task_var s)
  /\ (strip (task_var s) <> [] -> task_var (after add_task s) = []).
Proof.
  split; intros H; unfold after.
  - now rewrite (add_task_blank s H).
  - rewrite (add_task_accepted s H). unfold committed, written.
    cbn [writable set_task_var set_tasks].
    destruct (writable s); reflexivity.
Qed.

(** X5.  When the user answers no, [delete_task] on a selected row of the
    list does nothing but ask: the question names the text of the selected
    task, the callback returns, and the list, the file, the display and
    the selection are as before; nothing is written. *)
Theorem delete_declined_spec (s : State) (i : nat) (rest : list nat) (t : Task) :
  lb_sel s = i :: rest ->
  tasks s !! i = Some t ->
  outcome (delete_task false) s = Ret tt
  /\ after (delete_task false) s
     = emit (AskYesNo (py "Delete task")
               (py "Delete this task?" ++ [10; 10] ++ text t) false) s
  /\ tasks (after (delete_task false) s) = tasks s
  /\ file (after (delete_task false) s) = file s
  /\ lb_rows (after (delete_task false) s) = lb_rows s
  /\ lb_sel (after (delete_task false) s) = lb_sel s
  /\ (forall doc, WriteText doc ∉ emitted (delete_task false) s).
Proof.
  intros Hsel Ht. unfold outcome, after, emitted, after.
  rewrite (delete_task_declined s i rest t Hsel Ht). cbn [fst snd].
  split_and!; try reflexivity.
  intros doc. cbn [trace emit]. rewrite drop_trace.
  intros Hin. apply list_elem_of_singleton in Hin. discriminate.
Qed.

Lemma delete_declined_spec_witness :
  lb_sel (demo_state [] [1%nat] true) = [1%nat]
  /\ tasks (demo_state [] [1%nat] true) !! 1%nat = Some (mkTask (py "B") true)
  /\ tasks (after (delete_task false) (demo_state [] [1%nat] true)) = demo_tasks.
Proof.
  split; [reflexivity|]. split; [reflexivity|].
  exact (proj1 (proj2 (proj2
    (delete_declined_spec (demo_state [] [1%nat] true) 1 []
       (mkTask (py "B") true) eq_refl eq_refl)))).
Defined.

(* ===================================================================== *)
(** ** Gestures, one at a time                                            *)
(* ===================================================================== *)

Lemma written_rows ts s : lb_rows (written ts s) = lb_rows s.
Proof. reflexivity. Qed.

Lemma written_status ts s : status (written ts s) = status s.
Proof. reflexivity. Qed.

Lemma committed_cases (s : State) :
  (writable s = true
   /\ committed s = (refreshed (written (tasks s) s), Ret tt))
  \/ (writable s = false
      /\ committed s = (written (tasks s) s, Raise OSError)).
Proof. unfold committed. destruct (writable s); [left|right]; split; reflexivity. Qed.

Lemma in_sync_refreshed (s : State) : in_sync (refreshed s).
Proof. split; reflexivity. Qed.

Lemma toggle_done_ending (s : State) : ending s (toggle_done s).
Proof.
  destruct (lb_sel s) as [|i rest] eqn:Hsel.
  - rewrite (toggle_done_none s Hsel). constructor.
  - destruct (tasks s !! i) as [t|] eqn:Ht.
    + rewrite (toggle_done_at s i rest t Hsel Ht). cbv zeta.
      destruct (writable s) eqn:Hw.
      * apply end_commit_select; [exact Hw | exact Hw |].
        cbn [tasks set_tasks]. rewrite length_alter.
        eapply lookup_lt_Some; eauto.
      * now apply end_commit.
    + apply lookup_ge_None in Ht.
      rewrite (toggle_done_beyond s i rest Hsel Ht). constructor.
Qed.

Lemma delete_task_ending (answer : bool) (s : State) :
  ending s (delete_task answer s).
Proof.
  destruct (lb_sel s) as [|i rest] eqn:Hsel.
  - rewrite (delete_task_none answer s Hsel). constructor.
  - destruct (tasks s !! i) as [t|] eqn:Ht.
    + destruct answer.
      * rewrite (delete_task_confirmed s i rest t Hsel Ht). now apply end_commit.
      * rewrite (delete_task_declined s i rest t Hsel Ht). constructor.
    + apply lookup_ge_None in Ht.
      rewrite (delete_task_beyond answer s i rest Hsel Ht). constructor.
Qed.

Lemma add_task_ending (s : State) : ending s (add_task s).
Proof.
  destruct (strip (task_var s)) as [|c r] eqn:E.
  - rewrite (add_task_blank s E). constructor.
  - rewrite add_task_accepted by congruence. now apply end_commit.
Qed.

Lemma clear_completed_ending (s : State) : ending s (clear_completed s).
Proof.
  rewrite clear_completed_eq. cbv zeta. destruct (writable s) eqn:Hw.
  - now apply end_commit_notice.
  - now apply end_commit.
Qed.

(** What an ending means for the display. *)
Lemma ending_display (s : State) (r : State * res unit) :
  ending s r ->
  (r.2 = Ret tt -> in_sync s -> in_sync r.1)
  /\ (forall e, r.2 = Raise e ->
        lb_rows r.1 = lb_rows s /\ status r.1 = status s /\ lb_sel r.1 = lb_sel s).
Proof.
  intros [e| |s1 Hr Hst Hsel Hw Hf|s1 i Hw1 Hw _|s1 e Hw1 Hw]; cbn [fst snd].
  - split; [intros _ H; exact H | discriminate].
  - split; [discriminate | intros e _; repeat split].
  - destruct (committed_cases s1) as [[Hw1 ->]|[Hw1 ->]]; cbn [fst snd].
    + split; [intros _ _; apply in_sync_refreshed | discriminate].
    + split; [discriminate|]. intros e _.
      now rewrite written_rows, written_status, written_sel.
  - destruct (committed_cases s1) as [[_ ->]|[Hw' _]]; [|congruence].
    cbn [fst]. split; [intros _ _; split; reflexivity | discriminate].
  - destruct (committed_cases s1) as [[_ ->]|[Hw' _]]; [|congruence].
    cbn [fst]. split; [intros _ _; split; reflexivity | discriminate].
Qed.

Lemma dispatch_display (g : gesture) (s : State) :
  (outcome (dispatch g) s = Ret tt -> in_sync s -> in_sync (after (dispatch g) s))
  /\ (forall e, outcome (dispatch g) s = Raise e ->
        lb_rows (after (dispatch g) s) = lb_rows s
        /\ status (after (dispatch g) s) = status s
        /\ lb_sel (after (dispatch g) s) = lb_sel s).
Proof.
  unfold outcome, after. destruct g as [txt|i| | |answer| |]; cbn [dispatch].
  - split; [intros _ H; exact H | discriminate].
  - unfold click_row, modify. cbn [fst snd].
    split; [|discriminate]. intros _ H. now case_bool_decide.
  - apply ending_display, add_task_ending.
  - apply ending_display, toggle_done_ending.
  - apply ending_display, delete_task_ending.
  - apply ending_display, clear_completed_ending.
  - rewrite save_eq. cbn [fst snd]. unfold write_outcome. split.
    + intros _ [H1 H2]. split.
      * now rewrite written_rows, written_tasks.
      * now rewrite written_status, written_tasks.
    + intros e _. now rewrite written_rows, written_status, written_sel.
Qed.

(** X6.  The display follows the outcome of a callback.  Whatever the
    user does, if the callback returns and the display showed the list
    before, it shows the list afterwards; and if the callback raises, the
    listbox, the selection and the status line are exactly as before,
    even though the list may already have changed. *)
Theorem display_follows_outcome (g : gesture) (s : State) :
  (outcome (dispatch g) s = Ret tt -> in_sync s ->
     lb_rows (after (dispatch g) s) = rows_of (tasks (after (dispatch g) s))
     /\ status (after (dispatch g) s) = status_of (tasks (after (dispatch g) s)))
  /\ (forall e, outcome (dispatch g) s = Raise e ->
        lb_rows (after (dispatch g) s) = lb_rows s
        /\ status (after (dispatch g) s) = status s
        /\ lb_sel (after (dispatch g) s) = lb_sel s).
Proof. exact (dispatch_display g s). Qed.

(* ===================================================================== *)
(** ** Runs on a writable disk                                            *)
(* ===================================================================== *)

(** The state after a save that succeeded and the refresh that follows. *)
Lemma saved_refreshed_good (s1 : State) :
  writable s1 = true ->
  committed s1 = (refreshed (written (tasks s1) s1), Ret tt)
  /\ writable (refreshed (written (tasks s1) s1)) = true
  /\ tasks (refreshed (written (tasks s1) s1)) = tasks s1
  /\ lb_rows (refreshed (written (tasks s1) s1)) = rows_of (tasks s1)
  /\ in_sync (refreshed (written (tasks s1) s1))
  /\ file (refreshed (written (tasks s1) s1)) = file_of_text (dumps (tasks s1)).
Proof.
  intros Hw. destruct (committed_cases s1) as [[_ Hc]|[Hw' _]]; [|congruence].
  split_and!; try reflexivity.
  - exact Hc.
  - exact Hw.
  - apply in_sync_refreshed.
  - cbn [file refreshed]. rewrite written_file. unfold disk_after. now rewrite Hw.
Qed.

(** One gesture on a writable disk, from a state whose display shows the
    list and whose selection is a row. *)
Lemma dispatch_good (g : gesture) (s : State) :
  writable s = true -> well_formed s ->
  outcome (dispatch g) s = Ret tt
  /\ writable (after (dispatch g) s) = true
  /\ well_formed (after (dispatch g) s)
  /\ file_follows s (after (dispatch g) s).
Proof.
  intros Hw [Hsync Hsel]. unfold outcome, after.
  destruct g as [txt|i| | |answer| |]; cbn [dispatch].
  - unfold modify. cbn [fst snd].
    split_and!; try assumption; try reflexivity; [now split | now left].
  - unfold click_row, modify. cbn [fst snd]. case_bool_decide.
    + split_and!; try assumption; try reflexivity; [|now left].
      split; [exact Hsync|]. unfold sel_valid. cbn [lb_sel lb_rows set_lb_sel].
      constructor; [assumption|constructor].
    + split_and!; try assumption; try reflexivity; [now split | now left].
  - destruct (strip (task_var s)) as [|c r] eqn:E.
    + rewrite (add_task_blank s E). cbn [fst snd].
      split_and!; try assumption; try reflexivity; [now split | now left].
    + rewrite add_task_accepted by congruence.
      set (s1 := set_task_var [] (set_tasks (appended s) s)).
      destruct (saved_refreshed_good s1 Hw) as (-> & Hw' & Ht' & _ & Hs' & Hf').
      cbn [fst snd]. split_and!; try assumption; try reflexivity.
      * split; [exact Hs' | constructor].
      * right. now rewrite Hf', Ht'.
  - destruct (lb_sel s) as [|i rest] eqn:Hl.
    + rewrite (toggle_done_none s Hl). cbn [fst snd].
      split_and!; try assumption; try reflexivity; [|now left].
      split; [exact Hsync|]. unfold sel_valid. cbn [lb_sel emit]. now rewrite Hl.
    + assert (Hi : (i < length (tasks s))%nat).
      { unfold sel_valid in Hsel. rewrite Hl in Hsel. apply Forall_inv in Hsel.
        destruct Hsync as [Hrows _]. now rewrite Hrows, rows_of_length in Hsel. }
      destruct (lookup_lt_is_Some_2 _ _ Hi) as [t Ht].
      rewrite (toggle_done_at s i rest t Hl Ht). cbv zeta. rewrite Hw.
      set (s1 := set_tasks (alter flip_done i (tasks s)) s).
      destruct (saved_refreshed_good s1 Hw) as (-> & Hw' & Ht' & Hr' & Hs' & Hf').
      cbn [fst snd]. split_and!; try assumption; try reflexivity.
      * split; [exact Hs'|]. unfold sel_valid. cbn [lb_sel lb_rows set_lb_sel].
        constructor; [|constructor].
        change (i < length (lb_rows (refreshed (written (tasks s1) s1))))%nat.
        rewrite Hr', rows_of_length. subst s1. cbn [tasks set_tasks].
        now rewrite length_alter.
      * right. cbn [file tasks set_lb_sel]. now rewrite Hf', Ht'.
  - destruct (lb_sel s) as [|i rest] eqn:Hl.
    + rewrite (delete_task_none answer s Hl). cbn [fst snd].
      split_and!; try assumption; try reflexivity; [|now left].
      split; [exact Hsync|]. unfold sel_valid. cbn [lb_sel emit]. now rewrite Hl.
    + assert (Hi : (i < length (tasks s))%nat).
      { unfold sel_valid in Hsel. rewrite Hl in Hsel. apply Forall_inv in Hsel.
        destruct Hsync as [Hrows _]. now rewrite Hrows, rows_of_length in Hsel. }
      destruct (lookup_lt_is_Some_2 _ _ Hi) as [t Ht]. destruct answer.
      * rewrite (delete_task_confirmed s i rest t Hl Ht).
        set (s1 := set_tasks (delete i (tasks s)) (emit (delete_question t true) s)).
        destruct (saved_refreshed_good s1 Hw) as (-> & Hw' & Ht' & _ & Hs' & Hf').
        cbn [fst snd]. split_and!; try assumption; try reflexivity.
        -- split; [exact Hs' | constructor].
        -- right. now rewrite Hf', Ht'.
      * rewrite (delete_task_declined s i rest t Hl Ht). cbn [fst snd].
        split_and!; try assumption; try reflexivity; [|now left].
        split; [exact Hsync|]. unfold sel_valid. cbn [lb_sel lb_rows emit].
        rewrite Hl. unfold sel_valid in Hsel. now rewrite Hl in Hsel.
  - rewrite clear_completed_eq. cbv zeta. rewrite Hw.
    set (s1 := set_tasks (filter (fun t => done t = false) (tasks s)) s).
    destruct (saved_refreshed_good s1 Hw) as (-> & Hw' & Ht' & _ & Hs' & Hf').
    cbn [fst snd]. split_and!; try assumption; try reflexivity.
    + split; [exact Hs' | constructor].
    + right. cbn [file tasks emit]. now rewrite Hf', Ht'.
  - rewrite save_eq. cbn [fst snd]. unfold write_outcome. rewrite Hw.
    split_and!; try reflexivity.
    + exact Hw.
    + destruct Hsync as [H1 H2]. split; [split|]; assumption.
    + right. rewrite written_file, written_tasks. unfold disk_after.
      now rewrite Hw.
Qed.

Lemma run_good (gs : list gesture) :
  forall s, writable s = true -> well_formed s ->
    Forall (fun r => r = Ret tt) (run gs s).2
    /\ writable (run gs s).1 = true
    /\ well_formed (run gs s).1.
Proof.
  induction gs as [|g gs IH]; intros s Hw Hwf.
  - cbn [run fst snd]. repeat split; try assumption; try constructor; apply Hwf.
  - cbn [run fst snd].
    destruct (dispatch_good g s Hw Hwf) as (Ho & Hw' & Hwf' & _).
    destruct (IH _ Hw' Hwf') as (Hos & Hw'' & Hwf'').
    split_and!; try assumption. constructor; assumption.
Qed.

Lemma startup_good (repr : json -> pystr) (f : FileState) (w : bool)
    (how : option nat) :
  accessible f ->
  exists s0, startup repr f w how = Ret s0
    /\ writable s0 = w /\ well_formed s0 /\ disk_ok repr s0
    /\ tasks s0 = load_spec repr f /\ task_var s0 = [].
Proof.
  intros Hf. eexists. split; [now apply startup_eq|].
  split_and!; try reflexivity.
  - split; [apply in_sync_refreshed | constructor].
  - unfold disk_ok. cbn [file tasks refreshed]. now apply load_tasks_refines.
Qed.

(** X7.  On a disk that can be written, no callback ever raises: started
    on any file whose path can be examined, and whatever the user types,
    selects and presses, every callback returns, the display shows the
    list after each of them, and the selection is a row of the listbox
    (so [self.tasks[idx]] is always in range). *)
Theorem no_gesture_raises
    (repr : json -> pystr) (f : FileState) (how : option nat)
    (gs : list gesture) :
  accessible f ->
  exists s0, startup repr f true how = Ret s0
    /\ Forall (fun r => r = Ret tt) (run gs s0).2
    /\ lb_rows (run gs s0).1 = rows_of (tasks (run gs s0).1)
    /\ Forall (fun i => (i < length (tasks (run gs s0).1))%nat)
         (lb_sel (run gs s0).1).
Proof.
  intros Hf.
  destruct (startup_good repr f true how Hf) as (s0 & Hs & Hw & Hwf & _).
  exists s0. split; [exact Hs|].
  destruct (run_good gs s0 Hw Hwf) as (Hos & _ & [[Hr _] Hsel]).
  split_and!; try assumption.
  unfold sel_valid in Hsel. now rewrite Hr, rows_of_length in Hsel.
Qed.

Lemma no_gesture_raises_witness :
  accessible spec_example_file
  /\ exists s0, startup no_repr spec_example_file true None = Ret s0
       /\ Forall (fun r => r = Ret tt)
            (run [TypeEntry (py " z "); PressAdd; ClickRow 0; PressToggle;
                  PressDelete true; PressToggle; PressClear; PressSave] s0).2.
Proof.
  assert (Hf : accessible spec_example_file) by discriminate.
  split; [exact Hf|].
  destruct (no_gesture_raises no_repr spec_example_file None
              [TypeEntry (py " z "); PressAdd; ClickRow 0; PressToggle;
               PressDelete true; PressToggle; PressClear; PressSave] Hf)
    as (s0 & Hs & Hr & _).
  exists s0. split; [exact Hs | exact Hr].
Defined.

(* ===================================================================== *)
(** ** The file and the list in memory                                    *)
(* ===================================================================== *)












(* ===================================================================== *)
(** ** How the callbacks compose                                          *)
(* ===================================================================== *)

Lemma delete_last {A} (l : list A) (x : A) : delete (length l) (l ++ [x]) = l.
Proof.
  induction l as [|y l IH]; [reflexivity|]. simpl. now rewrite IH.
Qed.

(** X9.  Deleting undoes adding.  On a disk that can be written, adding
    the text of the entry, selecting the new last row and confirming its
    deletion gives back the list from before; the three callbacks
    return. *)
Theorem add_then_delete_last (s : State) :
  writable s = true ->
  strip (task_var s) <> [] ->
  tasks (run [PressAdd; ClickRow (length (tasks s)); PressDelete true] s).1
  = tasks s
  /\ (run [PressAdd; ClickRow (length (tasks s)); PressDelete true] s).2
     = [Ret tt; Ret tt; Ret tt].
Proof.
  intros Hw Hne. cbn [run dispatch fst snd].
  rewrite (add_task_accepted s Hne).
  set (s0 := set_task_var [] (set_tasks (appended s) s)).
  destruct (saved_refreshed_good s0 Hw) as (Hc & Hw1 & Ht1 & Hr1 & _ & _).
  rewrite Hc. cbn [fst snd].
  set (s1 := refreshed (written (tasks s0) s0)) in *.
  assert (Hlen : (length (tasks s) < length (lb_rows s1))%nat).
  { rewrite Hr1, rows_of_length. subst s0. cbn [tasks set_task_var set_tasks].
    unfold appended. rewrite length_app. simpl. lia. }
  unfold click_row, modify. cbn [fst snd].
  rewrite !bool_decide_eq_true_2 by exact Hlen.
  set (s2 := set_lb_sel [length (tasks s)] s1).
  assert (Ht2 : tasks s2 = tasks s ++ [mkTask (strip (task_var s)) false]).
  { subst s2. cbn [tasks set_lb_sel]. rewrite Ht1. reflexivity. }
  assert (Hlk : tasks s2 !! length (tasks s)
                = Some (mkTask (strip (task_var s)) false)).
  { rewrite Ht2. apply list_lookup_middle. reflexivity. }
  rewrite (delete_task_confirmed s2 (length (tasks s)) [] _ eq_refl Hlk).
  rewrite committed_tasks, committed_outcome. cbn [tasks set_tasks].
  rewrite Ht2, delete_last. split; [reflexivity|].
  unfold write_outcome. cbn [writable set_tasks emit].
  change (writable s2) with (writable s1). now rewrite Hw1.
Qed.

Lemma add_then_delete_last_witness :
  writable (demo_state (py "E") [] true) = true
  /\ strip (task_var (demo_state (py "E") [] true)) <> []
  /\ tasks (run [PressAdd; ClickRow 4; PressDelete true]
              (demo_state (py "E") [] true)).1
     = demo_tasks.
Proof.
  assert (H : strip (task_var (demo_state (py "E") [] true)) <> [])
    by (vm_compute; discriminate).
  split; [reflexivity|]. split; [exact H|].
  exact (proj1 (add_then_delete_last (demo_state (py "E") [] true) eq_refl H)).
Defined.

(** Selecting a row of the list and toggling it. *)
Lemma click_toggle (s : State) (i : nat) :
  length (lb_rows s) = length (tasks s) ->
  (i < length (tasks s))%nat ->
  tasks (toggle_done (click_row i s).1).1 = alter flip_done i (tasks s)
  /\ length (lb_rows (toggle_done (click_row i s).1).1)
     = length (tasks (toggle_done (click_row i s).1).1).
Proof.
  intros Hrows Hi. unfold click_row, modify. cbn [fst].
  rewrite bool_decide_eq_true_2 by (now rewrite Hrows).
  set (sc := set_lb_sel [i] s).
  assert (Ht : tasks (toggle_done sc).1 = alter flip_done i (tasks s)).
  { change (tasks (after toggle_done sc) = alter flip_done i (tasks s)).
    rewrite toggle_done_tasks. reflexivity. }
  split; [exact Ht|]. rewrite Ht, length_alter.
  destruct (lookup_lt_is_Some_2 _ _ Hi) as [t Hlk].
  rewrite (toggle_done_at sc i [] t eq_refl Hlk). cbv zeta.
  set (s1 := set_tasks (alter flip_done i (tasks sc)) sc).
  destruct (committed_cases s1) as [[Hw Hc]|[Hw Hc]];
    change (writable sc) with (writable s1); rewrite Hw, Hc; cbn [fst].
  - cbn [lb_rows set_lb_sel refreshed]. rewrite rows_of_length, written_tasks.
    subst s1. cbn [tasks set_tasks]. apply length_alter.
  - rewrite written_rows. exact Hrows.
Qed.

(** X10.  Toggling two rows gives the same list in either order: select
    row [i] and toggle, then row [j] and toggle, or [j] first and then
    [i], whether or not the saves succeed. *)
Theorem toggles_commute (s : State) (i j : nat) :
  length (lb_rows s) = length (tasks s) ->
  (i < length (tasks s))%nat ->
  (j < length (tasks s))%nat ->
  tasks (run [ClickRow i; PressToggle; ClickRow j; PressToggle] s).1
  = tasks (run [ClickRow j; PressToggle; ClickRow i; PressToggle] s).1.
Proof.
  intros Hrows Hi Hj. cbn [run dispatch fst snd].
  destruct (click_toggle s i Hrows Hi) as [Ti Ri].
  destruct (click_toggle s j Hrows Hj) as [Tj Rj].
  destruct (click_toggle _ j Ri) as [Tij _]; [now rewrite Ti, length_alter|].
  destruct (click_toggle _ i Rj) as [Tji _]; [now rewrite Tj, length_alter|].
  rewrite Tij, Tji, Ti, Tj.
  destruct (decide (i = j)) as [->|Hne]; [reflexivity|].
  apply list_alter_alter_ne. congruence.
Qed.

Lemma toggles_commute_witness :
  length (lb_rows (demo_state [] [] false))
  = length (tasks (demo_state [] [] false))
  /\ tasks (run [ClickRow 0; PressToggle; ClickRow 2; PressToggle]
              (demo_state [] [] false)).1
     = tasks (run [ClickRow 2; PressToggle; ClickRow 0; PressToggle]
                (demo_state [] [] false)).1.
Proof.
  split; [reflexivity|].
  refine (toggles_commute (demo_state [] [] false) 0 2 eq_refl _ _);
    simpl; lia.
Defined.

(* ===================================================================== *)
(** ** Quitting                                                           *)
(* ===================================================================== *)


(* ===================================================================== *)
(** ** A write that breaks off                                            *)
(* ===================================================================== *)

(** X15.  A save whose write breaks off loses the list on disk.  When
    [write_text] fails after [open] has emptied the file, [save] raises
    [OSError], the list in memory is as it was, and the file holds the
    first [n] characters of the text.  If these are not the whole text,
    [json.loads] refuses them, whatever the list and wherever the text
    was cut: [load_tasks] on that file returns the empty list.  If the
    whole text was written before the failure, the file loads as after a
    save that succeeded. *)
Theorem torn_save_spec (repr : json -> pystr) (s : State) (n : nat) :
  writable s = false ->
  torn s = Some n ->
  Forall (fun t => is_str (text t)) (tasks s) ->
  outcome save s = Raise OSError
  /\ tasks (after save s) = tasks s
  /\ file (after save s) = file_of_text (take n (dumps (tasks s)))
  /\ ((n < length (dumps (tasks s)))%nat ->
        file (after save s) = Malformed
        /\ load_tasks repr (file (after save s)) = Ret [])
  /\ ((length (dumps (tasks s)) <= n)%nat ->
        load_tasks repr (file (after save s)) = Ret (reread <$> tasks s)).
Proof.
  intros Hw Ht Hs. unfold outcome, after. rewrite save_eq. cbn [fst snd].
  rewrite written_file. unfold write_outcome, disk_after. rewrite Hw, Ht.
  split_and!; try reflexivity.
  - intros Hn. now rewrite cut_file_malformed.
  - intros Hn. rewrite take_ge by exact Hn. now apply load_written.
Qed.

Lemma torn_save_spec_witness :
  writable (torn_state 4) = false
  /\ torn (torn_state 4) = Some 4%nat
  /\ Forall (fun t => is_str (text t)) (tasks (torn_state 4))
  /\ outcome save (torn_state 4) = Raise OSError
  /\ load_tasks no_repr (file (after save (torn_state 4))) = Ret [].
Proof.
  assert (Hs : Forall (fun t => is_str (text t)) (tasks (torn_state 4)))
    by (repeat constructor).
  split; [reflexivity|]. split; [reflexivity|]. split; [exact Hs|].
  pose proof (torn_save_spec no_repr (torn_state 4) 4 eq_refl eq_refl Hs)
    as (Ho & _ & _ & Hcut & _).
  split; [exact Ho|]. apply Hcut. vm_compute. lia.
Defined.

(* ===================================================================== *)
(** ** What loading keeps                                                 *)
(* ===================================================================== *)

Lemma has_text_record (repr : json -> pystr) (item : json) :
  has_text item = true <-> is_Some (record_task repr item).
Proof.
  destruct item; simpl; try (split; [discriminate | intros [? [=]]]).
  rewrite dict_has_get.
  destruct (dict_get (py "text") members); split; eauto; intros [? [=]].
Qed.

Lemma omap_record_length (repr : json -> pystr) (items : list json) :
  length (omap (record_task repr) items)
  = length (filter (fun item => has_text item = true) items).
Proof.
  induction items as [|item items IH]; [reflexivity|].
  cbn [omap list_omap]. rewrite filter_cons.
  pose proof (has_text_record repr item) as Hrec.
  destruct (record_task repr item) as [t|].
  - rewrite decide_True by (apply Hrec; eauto). simpl. now rewrite IH.
  - rewrite decide_False; [exact IH|].
    intros H. apply Hrec in H as [? [=]].
Qed.

(** X12.  [load_tasks] gives one task for each record that is an object
    with a [text] member and none for any other: the number of tasks is
    the number of such records, never more than the number of records,
    and equal to it exactly when every record is such an object. *)
Theorem load_count (repr : json -> pystr) (items : list json) :
  exists ts, load_tasks repr (Document (JArr items)) = Ret ts
    /\ length ts = length (filter (fun item => has_text item = true) items)
    /\ (length ts <= length items)%nat
    /\ (length ts = length items
        <-> Forall (fun item => has_text item = true) items).
Proof.
  exists (omap (record_task repr) items).
  split; [apply load_tasks_document|].
  rewrite omap_record_length. split_and!.
  - reflexivity.
  - apply length_filter.
  - split.
    + intros Hlen. apply Forall_forall. intros x Hx.
      destruct (decide (has_text x = true)) as [|Hn]; [assumption|].
      pose proof (length_filter_lt (fun item => has_text item = true) items x Hx Hn).
      lia.
    + intros Hall. f_equal. induction Hall as [|x l Hx _ IH]; [reflexivity|].
      rewrite filter_cons, decide_True by exact Hx. now rewrite IH.
Qed.

(* ===================================================================== *)
(** ** The invariant along a run                                          *)
(* ===================================================================== *)

Lemma dispatch_keeps_inv (g : gesture) (s : State) :
  tasks_inv (tasks s) -> tasks_inv (tasks (after (dispatch g) s)).
Proof.
  intros Hinv. destruct g as [txt|i| | |answer| |]; cbn [dispatch].
  - exact Hinv.
  - unfold after, click_row, modify. cbn [fst]. now case_bool_decide.
  - rewrite add_task_tasks.
    destruct (strip (task_var s)) as [|c r] eqn:E; [exact Hinv|].
    unfold appended. apply Forall_app. split; [exact Hinv|].
    constructor; [|constructor]. unfold task_ok. cbn [text].
    rewrite strip_idempotent, E. discriminate.
  - rewrite toggle_done_tasks. destruct (lb_sel s); [exact Hinv|].
    apply Forall_alter; [exact Hinv|]. intros x _. apply task_ok_flip.
  - rewrite delete_task_tasks. destruct (lb_sel s); [exact Hinv|].
    destruct answer; [|exact Hinv]. now apply Forall_delete.
  - rewrite clear_completed_tasks. now apply tasks_inv_filter.
  - unfold after. rewrite save_eq. cbn [fst]. now rewrite written_tasks.
Qed.

Lemma run_keeps_inv (gs : list gesture) :
  forall s, tasks_inv (tasks s) -> tasks_inv (tasks (run gs s).1).
Proof.
  induction gs as [|g gs IH]; intros s Hinv; cbn [run fst]; [exact Hinv|].
  apply IH. exact (dispatch_keeps_inv g s Hinv).
Qed.

(** X13.  Started on a file whose path can be examined and whose records
    all have a text that is non-empty after trimming, the program never
    holds a task with a blank text: whatever the user does, and whether
    or not the saves succeed, every task of the list has a text that is
    non-empty after trimming. *)
Theorem invariant_along_runs
    (repr : json -> pystr) (f : FileState) (w : bool) (how : option nat)
    (gs : list gesture) :
  accessible f ->
  file_texts_ok repr f ->
  exists s0, startup repr f w how = Ret s0
    /\ tasks_inv (tasks (run gs s0).1).
Proof.
  intros Ha Hf.
  destruct (startup_good repr f w how Ha) as (s0 & Hs & _ & _ & _ & Ht & _).
  exists s0. split; [exact Hs|]. apply run_keeps_inv.
  rewrite Ht. now apply tasks_inv_load.
Qed.

Lemma invariant_along_runs_witness :
  accessible spec_example_file
  /\ file_texts_ok no_repr spec_example_file
  /\ exists s0, startup no_repr spec_example_file false (Some 7%nat) = Ret s0
       /\ tasks_inv (tasks (run [TypeEntry (py " z "); PressAdd; ClickRow 0;
                                 PressToggle; PressClear] s0).1).
Proof.
  assert (Ha : accessible spec_example_file) by discriminate.
  assert (Hf : file_texts_ok no_repr spec_example_file).
  { unfold file_texts_ok, spec_example_file. all_nonblank. }
  split; [exact Ha|]. split; [exact Hf|].
  exact (invariant_along_runs no_repr spec_example_file false (Some 7%nat)
           [TypeEntry (py " z "); PressAdd; ClickRow 0; PressToggle; PressClear]
           Ha Hf).
Defined.

(* ===================================================================== *)
(** ** After a deletion whose save failed                                 *)
(* ===================================================================== *)

(** X14.  The window a failed save leaves behind.  On a disk that cannot
    be written, a confirmed deletion of the selected row [i] of a display
    that showed the list ends with [OSError]; the task is gone from the
    list, but the listbox still has all its rows, one more than the list
    has tasks, and row [i] is still selected.  If [i] was the last row,
    the next [toggle_done] or [delete_task] finds no task under the
    selection and raises [IndexError]. *)
Theorem failed_delete_leaves_stale_row (s : State) (i : nat) (rest : list nat) :
  writable s = false ->
  lb_rows s = rows_of (tasks s) ->
  lb_sel s = i :: rest ->
  (i < length (tasks s))%nat ->
  outcome (delete_task true) s = Raise OSError
  /\ lb_rows (after (delete_task true) s) = lb_rows s
  /\ length (lb_rows (after (delete_task true) s))
     = S (length (tasks (after (delete_task true) s)))
  /\ lb_sel (after (delete_task true) s) = i :: rest
  /\ (S i = length (tasks s) ->
      forall answer,
        outcome toggle_done (after (delete_task true) s) = Raise IndexError
        /\ outcome (delete_task answer) (after (delete_task true) s)
           = Raise IndexError).
Proof.
  intros Hw Hrows Hsel Hi.
  destruct (lookup_lt_is_Some_2 _ _ Hi) as [t Ht].
  assert (Htasks : tasks (after (delete_task true) s) = delete i (tasks s)).
  { rewrite delete_task_tasks, Hsel. reflexivity. }
  assert (Hlen : S (length (tasks (after (delete_task true) s)))
                 = length (tasks s)).
  { rewrite Htasks, length_delete by eauto. lia. }
  assert (Hstate : delete_task true s
                   = (written (delete i (tasks s))
                        (set_tasks (delete i (tasks s))
                           (emit (delete_question t true) s)),
                      Raise OSError)).
  { rewrite (delete_task_confirmed s i rest t Hsel Ht).
    set (s1 := set_tasks (delete i (tasks s)) (emit (delete_question t true) s)).
    destruct (committed_cases s1) as [[Hw1 _]|[_ Hc]]; [|exact Hc].
    change (writable s1) with (writable s) in Hw1. congruence. }
  assert (Hsel' : lb_sel (after (delete_task true) s) = i :: rest).
  { unfold after. rewrite Hstate. cbn [fst]. now rewrite written_sel. }
  split_and!.
  - unfold outcome. now rewrite Hstate.
  - unfold after. rewrite Hstate. cbn [fst]. now rewrite written_rows.
  - rewrite Hlen. unfold after. rewrite Hstate. cbn [fst].
    rewrite written_rows. cbn [lb_rows set_tasks emit].
    now rewrite Hrows, rows_of_length.
  - exact Hsel'.
  - intros Hlast answer.
    assert (Hge : (length (tasks (after (delete_task true) s)) <= i)%nat) by lia.
    unfold outcome.
    rewrite (toggle_done_beyond _ i rest Hsel' Hge),
            (delete_task_beyond answer _ i rest Hsel' Hge).
    split; reflexivity.
Qed.

Lemma failed_delete_leaves_stale_row_witness :
  writable (after (click_row 0) one_task_state) = false
  /\ lb_sel (after (click_row 0) one_task_state) = [0%nat]
  /\ outcome (delete_task true) (after (click_row 0) one_task_state)
     = Raise OSError
  /\ outcome toggle_done stale_state = Raise IndexError.
Proof.
  split; [reflexivity|]. split; [reflexivity|].
  pose proof (failed_delete_leaves_stale_row
                (after (click_row 0) one_task_state) 0 []
                eq_refl eq_refl eq_refl (Nat.lt_0_succ 0))
    as (Ho & _ & _ & _ & Hnext).
  split; [exact Ho|].
  exact (proj1 (Hnext eq_refl true)).
Defined.
